(** * sysinfo: the /proc/cpuinfo scanner, its field decoders and the
      implementer/part name tables of [sysinfo.go].

    Go strings are byte sequences; they are embedded as [string], whose
    characters are the 256 byte values.  Go's [int] is taken at the width
    of a 64-bit target ([bits.UintSize = 64]) and carried in [Z] with the
    wrap-around written out. *)

From Stdlib Require Import ZArith List String Ascii Bool Lia.
From Stdlib Require Import Sorting.Sorted Sorting.Permutation.
From Stdlib Require Import DecimalString.
Import ListNotations.

Open Scope string_scope.
Open Scope Z_scope.

(** ** Machine integers *)

Definition UintSize : Z := 64.

(** [uint64(x)]: the low 64 bits. *)
Definition wrap_u64 (x : Z) : Z := x mod 2 ^ 64.

(** [int(x)] on a 64-bit target: two's complement reading of the low 64 bits. *)
Definition wrap_int (x : Z) : Z :=
  let y := x mod 2 ^ 64 in if y <? 2 ^ 63 then y else y - 2 ^ 64.

Definition byte_of (c : ascii) : Z := Z.of_N (N_of_ascii c).

(** ** The parts of package [strings] the scanner calls *)

Module Strings.

Definition len (s : string) : Z := Z.of_nat (String.length s).

Fixpoint take (n : nat) (s : string) : string :=
  match n, s with
  | S n', String c s' => String c (take n' s')
  | _, _ => EmptyString
  end.

Fixpoint drop (n : nat) (s : string) : string :=
  match n, s with
  | S n', String _ s' => drop n' s'
  | _, _ => s
  end.

(** [s[:i]] and [s[i:]] for an index the caller keeps within [0..len s]. *)
Definition slice_to (s : string) (i : Z) : string := take (Z.to_nat i) s.
Definition slice_from (s : string) (i : Z) : string := drop (Z.to_nat i) s.

Fixpoint rev (s : string) : string :=
  match s with
  | EmptyString => EmptyString
  | String c s' => rev s' ++ String c EmptyString
  end.

(** [strings.IndexByte]: the first index of [c], or -1. *)
Fixpoint IndexByte (s : string) (c : ascii) : Z :=
  match s with
  | EmptyString => -1
  | String a s' =>
      if Ascii.eqb a c then 0
      else let i := IndexByte s' c in if i <? 0 then -1 else i + 1
  end.

Fixpoint HasPrefix (s p : string) : bool :=
  match p, s with
  | EmptyString, _ => true
  | String a p', String b s' => Ascii.eqb a b && HasPrefix s' p'
  | String _ _, EmptyString => false
  end.

(** [strings.Index]: the first index at which [sep] occurs, or -1. *)
Fixpoint Index (s sep : string) : Z :=
  if HasPrefix s sep then 0
  else match s with
       | EmptyString => -1
       | String _ s' => let i := Index s' sep in if i <? 0 then -1 else i + 1
       end.

(** [len(s) >= len(suffix) && s[len(s)-len(suffix):] == suffix] *)
Definition HasSuffix (s suffix : string) : bool :=
  (len suffix <=? len s) && String.eqb (slice_from s (len s - len suffix)) suffix.

Definition TrimSuffix (s suffix : string) : string :=
  if HasSuffix s suffix then slice_to s (len s - len suffix) else s.

(** The six ASCII bytes of [asciiSpace]: tab, LF, VT, FF, CR, space. *)
Definition asciiSpace (c : ascii) : bool :=
  let b := byte_of c in ((9 <=? b) && (b <=? 13)) || (b =? 32).

(** UTF-8 encodings of the white space runes above U+007F that
    [unicode.IsSpace] accepts: U+0085 and U+00A0 on two bytes; U+1680,
    U+2000..U+200A, U+2028, U+2029, U+202F, U+205F and U+3000 on three. *)
Definition space2 (c1 c2 : ascii) : bool :=
  (byte_of c1 =? 194) && ((byte_of c2 =? 133) || (byte_of c2 =? 160)).

Definition space3 (c1 c2 c3 : ascii) : bool :=
  let b1 := byte_of c1 in let b2 := byte_of c2 in let b3 := byte_of c3 in
  ((b1 =? 225) && (b2 =? 154) && (b3 =? 128))
  || ((b1 =? 226) && (b2 =? 128)
      && (((128 <=? b3) && (b3 <=? 138)) || (b3 =? 168) || (b3 =? 169) || (b3 =? 175)))
  || ((b1 =? 226) && (b2 =? 129) && (b3 =? 159))
  || ((b1 =? 227) && (b2 =? 128) && (b3 =? 128)).

(** [TrimLeftFunc(s, unicode.IsSpace)]: drop leading white space runes.
    A byte that starts no white space rune (malformed UTF-8 included,
    which decodes to U+FFFD) stops the scan. *)
Fixpoint trimLeft (s : string) : string :=
  match s with
  | EmptyString => EmptyString
  | String c1 r1 =>
      if asciiSpace c1 then trimLeft r1
      else match r1 with
           | EmptyString => s
           | String c2 r2 =>
               if space2 c1 c2 then trimLeft r2
               else match r2 with
                    | EmptyString => s
                    | String c3 r3 => if space3 c1 c2 c3 then trimLeft r3 else s
                    end
           end
  end.

(** [TrimRightFunc(s, unicode.IsSpace)], on the reversed string: the last
    rune is a white space rune exactly when the string ends with one of
    the encodings above. *)
Fixpoint trimLeftRev (s : string) : string :=
  match s with
  | EmptyString => EmptyString
  | String c1 r1 =>
      if asciiSpace c1 then trimLeftRev r1
      else match r1 with
           | EmptyString => s
           | String c2 r2 =>
               if space2 c2 c1 then trimLeftRev r2
               else match r2 with
                    | EmptyString => s
                    | String c3 r3 => if space3 c3 c2 c1 then trimLeftRev r3 else s
                    end
           end
  end.

Definition trimRight (s : string) : string := rev (trimLeftRev (rev s)).

(** [strings.TrimSpace]: both ends, white space as Unicode defines it. *)
Definition TrimSpace (s : string) : string := trimRight (trimLeft s).

(** [strings.Split(s, " ")]: the pieces between single spaces; the empty
    string yields one empty piece. *)
Fixpoint splitSpace (cur : string) (s : string) : list string :=
  match s with
  | EmptyString => [rev cur]
  | String c s' =>
      if Ascii.eqb c " " then rev cur :: splitSpace EmptyString s'
      else splitSpace (String c cur) s'
  end.

Definition Split_space (s : string) : list string := splitSpace EmptyString s.

(** The order of [<] on Go strings: bytewise lexicographic. *)
Fixpoint ltb (a b : string) : bool :=
  match a, b with
  | _, EmptyString => false
  | EmptyString, String _ _ => true
  | String x a', String y b' =>
      if byte_of x <? byte_of y then true
      else if byte_of y <? byte_of x then false
      else ltb a' b'
  end.

End Strings.

(** ** [strconv.ParseUint] *)

Module Strconv.

Inductive NumError : Set := ErrSyntax | ErrRange.

Definition maxUint64 : Z := 2 ^ 64 - 1.

(** [lower(c) = c | ('x' - 'X')] *)
Definition lower (c : Z) : Z := Z.lor c 32.

(** The digit a character stands for: ['0'..'9'], then letters of either
    case from 10 up; [None] is the [default] case of the switch. *)
Definition digitOf (c : Z) : option Z :=
  if (48 <=? c) && (c <=? 57) then Some (c - 48)
  else if (97 <=? lower c) && (lower c <=? 122) then Some (lower c - 97 + 10)
  else None.

(** The digit loop: [n] is the value so far, [us] whether an underscore was
    seen.  [inr] carries the value returned beside an error. *)
Fixpoint digits (base : Z) (base0 : bool) (cutoff maxVal : Z)
         (s : string) (n : Z) (us : bool) : (Z * bool) + (Z * NumError) :=
  match s with
  | EmptyString => inl (n, us)
  | String a s' =>
      let c := byte_of a in
      if (c =? 95) && base0 then digits base base0 cutoff maxVal s' n true
      else
        match digitOf c with
        | None => inr (0, ErrSyntax)
        | Some d =>
            if d >=? base then inr (0, ErrSyntax)
            else if n >=? cutoff then inr (maxVal, ErrRange)
            else
              let n' := wrap_u64 (n * base) in
              let n1 := wrap_u64 (n' + d) in
              if (n1 <? n') || (n1 >? maxVal) then inr (maxVal, ErrRange)
              else digits base base0 cutoff maxVal s' n1 us
        end
  end.

Definition isDigit (c : Z) : bool := (48 <=? c) && (c <=? 57).
Definition isHexLetter (c : Z) : bool := (97 <=? lower c) && (lower c <=? 102).

(** [saw] of [underscoreOK]: the kind of the previous character. *)
Inductive Saw : Set := SawStart | SawDigit | SawUnderscore | SawOther.

Fixpoint underscoreLoop (hex : bool) (s : string) (saw : Saw) : bool :=
  match s with
  | EmptyString => match saw with SawUnderscore => false | _ => true end
  | String a s' =>
      let c := byte_of a in
      if isDigit c || (hex && isHexLetter c) then underscoreLoop hex s' SawDigit
      else if c =? 95 then
        match saw with
        | SawDigit => underscoreLoop hex s' SawUnderscore
        | _ => false
        end
      else
        match saw with
        | SawUnderscore => false
        | _ => underscoreLoop hex s' SawOther
        end
  end.

Definition isBasePrefixLetter (c : Z) : bool :=
  (lower c =? 98) || (lower c =? 111) || (lower c =? 120).

(** [underscoreOK]: underscores only between digits, or between a base
    prefix and a digit. *)
Definition underscoreOK (s : string) : bool :=
  let s :=
    match s with
    | String a s' => if (byte_of a =? 45) || (byte_of a =? 43) then s' else s
    | EmptyString => s
    end in
  match s with
  | String a (String b s') =>
      if (byte_of a =? 48) && isBasePrefixLetter (byte_of b)
      then underscoreLoop (lower (byte_of b) =? 120) s' SawDigit
      else underscoreLoop false s SawStart
  | _ => underscoreLoop false s SawStart
  end.

(** [ParseUint(s, 0, bitSize)] for [0 < bitSize <= 64]: the value and the
    error, if any.  Base 0 reads the base off the prefix: [0b], [0o], [0x]
    (either case) when at least one more character follows, a bare
    leading [0] for octal, base 10 otherwise. *)
Definition ParseUint0 (s : string) (bitSize : Z) : Z * option NumError :=
  match s with
  | EmptyString => (0, Some ErrSyntax)
  | String a rest =>
      let '(base, body) :=
        if byte_of a =? 48 then
          match rest with
          | String b (String c r) =>
              if lower (byte_of b) =? 98 then (2, String c r)
              else if lower (byte_of b) =? 111 then (8, String c r)
              else if lower (byte_of b) =? 120 then (16, String c r)
              else (8, rest)
          | _ => (8, rest)
          end
        else (10, s) in
      let cutoff := maxUint64 / base + 1 in
      let maxVal := wrap_u64 (wrap_u64 (Z.shiftl 1 bitSize) - 1) in
      match digits base true cutoff maxVal body 0 false with
      | inr (v, e) => (v, Some e)
      | inl (n, us) =>
          if us && negb (underscoreOK s) then (0, Some ErrSyntax) else (n, None)
      end
  end.

End Strconv.

(** ** Primitive parsers of [sysinfo.go] *)

(** [atoi]: the error of [ParseUint] is dropped, the value converted to [int]. *)
Definition atoi (s : string) : Z :=
  let '(x, _) := Strconv.ParseUint0 s UintSize in wrap_int x.

Definition parseBool (s : string) : bool := String.eqb s "yes".

(** [split]: key and value of a line around its first colon. *)
Definition split (s : string) : string * string :=
  let i := Strings.IndexByte s ":" in
  let key := if i >=? 0 then Strings.TrimSpace (Strings.slice_to s i) else "" in
  let value :=
    if i + 1 <? Strings.len s then Strings.TrimSpace (Strings.slice_from s (i + 1)) else "" in
  (key, value).

(** ** Composite field decoders *)

Definition parseSize (s : string) : Z :=
  let i := Strings.IndexByte s " " in
  if (i <? 0) || (i =? Strings.len s) then 0
  else
    let x := atoi (Strings.slice_to s i) in
    let unit := Strings.slice_from s (i + 1) in
    if String.eqb unit "KB" then wrap_int (x * 1024)
    else if String.eqb unit "MB" then wrap_int (x * (1024 * 1024))
    else 0.

Definition parseAddrSizes (s : string) : Z * Z :=
  let sep := ", " in
  let i := Strings.Index s sep in
  if (i <? 0) || (i + Strings.len sep =? Strings.len s) then (0, 0)
  else
    let lhs := Strings.slice_to s i in
    let rhs := Strings.slice_from s (i + Strings.len sep) in
    if negb (Strings.HasSuffix lhs " bits physical") then (0, 0)
    else
      let lhs := Strings.TrimSuffix lhs " bits physical" in
      if negb (Strings.HasSuffix rhs " bits virtual") then (0, 0)
      else
        let rhs := Strings.TrimSuffix rhs " bits virtual" in
        (atoi lhs, atoi rhs).

Definition parseTLB (s : string) : Z * Z :=
  if negb (Strings.HasSuffix s " pages") then (0, 0)
  else
    let s := Strings.TrimSuffix s " pages" in
    let unit :=
      if Strings.HasSuffix s "K" then Some 1024
      else if Strings.HasSuffix s "M" then Some (1024 * 1024)
      else None in
    match unit with
    | None => (0, 0)
    | Some unit =>
        let s := Strings.slice_to s (Strings.len s - 1) in
        let i := Strings.IndexByte s " " in
        if (i <? 0) || (i =? Strings.len s) then (0, 0)
        else (atoi (Strings.slice_to s i),
              wrap_int (atoi (Strings.slice_from s (i + 1)) * unit))
    end.

(** ** [bufio.Scanner] with the default line splitter *)

Module Bufio.

(** [MaxScanTokenSize]: the scanner's buffer never grows past this. *)
Definition MaxScanTokenSize : Z := 64 * 1024.

Definition dropCR (s : string) : string :=
  match Strings.rev s with
  | String c r => if byte_of c =? 13 then Strings.rev r else s
  | EmptyString => s
  end.

(** The tokens that successive [Scan] calls deliver: [cur] holds the bytes
    of the line being read, last byte first, and [n] counts them.  A line
    ends at a line feed; an unterminated, non-empty last line is delivered
    too.  When [MaxScanTokenSize] bytes have been buffered without a line
    feed, [Scan] fails with [ErrTooLong] and delivers nothing more. *)
Fixpoint scan (cur : string) (n : Z) (rest : string) : list string :=
  match rest with
  | EmptyString =>
      match cur with
      | EmptyString => []
      | _ => [dropCR (Strings.rev cur)]
      end
  | String c rest' =>
      if byte_of c =? 10 then dropCR (Strings.rev cur) :: scan EmptyString 0 rest'
      else if n + 1 >=? MaxScanTokenSize then []
      else scan (String c cur) (n + 1) rest'
  end.

Definition lines (buf : string) : list string := scan EmptyString 0 buf.

End Bufio.

(** ** Implementer and part codes *)

(** [Implementer] is a [uint8], [Part] a [uint16]. *)
Definition Implementer : Set := Z.
Definition Part : Set := Z.

Definition to_Implementer (x : Z) : Implementer := x mod 2 ^ 8.
Definition to_Part (x : Z) : Part := x mod 2 ^ 16.

Definition ARMLtd : Implementer := 65.    (* 'A' *)
Definition Broadcom : Implementer := 66.  (* 'B' *)
Definition Cavium : Implementer := 67.    (* 'C' *)
Definition Fujitsu : Implementer := 70.   (* 'F' *)
Definition NVIDIA : Implementer := 78.    (* 'N' *)
Definition HiSilicon : Implementer := 72. (* 'H' *)
Definition Qualcomm : Implementer := 81.  (* 'Q' *)
Definition Samsung : Implementer := 83.   (* 'S' *)
Definition Intel : Implementer := 105.    (* 'i' *)
Definition Apple : Implementer := 97.     (* 'a' *)

(** ARM *)
Definition ARM926EJS : Part := 0x926.
Definition ARM11MPCore : Part := 0xb02.
Definition ARM1136JS : Part := 0xb36.
Definition ARM1156T2S : Part := 0xb56.
Definition ARM1176JZS : Part := 0xb76.
Definition CortexA8 : Part := 0xc08.
Definition CortexA9 : Part := 0xc09.
Definition CortexA15 : Part := 0xc0f.
Definition CortexM0 : Part := 0xc20.
Definition CortexM3 : Part := 0xc23.
Definition CortexM4 : Part := 0xc24.
Definition CortexM55 : Part := 0xd22.
Definition CortexA34 : Part := 0xd02.
Definition CortexA35 : Part := 0xd04.
Definition CortexA53 : Part := 0xd03.
Definition CortexA55 : Part := 0xd05.
Definition CortexA57 : Part := 0xd07.
Definition CortexA72 : Part := 0xd08.
Definition CortexA73 : Part := 0xd09.
Definition CortexA75 : Part := 0xd0a.
Definition CortexA76 : Part := 0xd0b.
Definition CortexA77 : Part := 0xd0d.
Definition CortexA78 : Part := 0xd41.
Definition CortexX1 : Part := 0xd44.
Definition CortexX1C : Part := 0xd4c.
Definition NeoverseN1 : Part := 0xd0c.
Definition NeoverseN2 : Part := 0xd49.
Definition NeoverseV1 : Part := 0xd40.
Definition Firestorm : Part := 0x23.
Definition Icestorm : Part := 0x22.

Definition armPartName (p : Part) : string :=
  if (p =? ARM926EJS) then "ARM926EJ-S"
  else if (p =? ARM11MPCore) then "ARM11 MPCore"
  else if (p =? ARM1136JS) then "ARM1136J-S"
  else if (p =? ARM1156T2S) then "ARM1156T2-S"
  else if (p =? ARM1176JZS) then "ARM1176JZ-S"
  else if (p =? CortexA8) then "Cortex-A8"
  else if (p =? CortexA9) then "Cortex-A9"
  else if (p =? CortexA15) then "Cortex-A15"
  else if (p =? CortexM0) then "Cortex-M0"
  else if (p =? CortexM3) then "Cortex-M3"
  else if (p =? CortexM4) then "Cortex-M4"
  else if (p =? CortexM55) then "Cortex-M55"
  else if (p =? CortexA34) then "Cortex-A34"
  else if (p =? CortexA35) then "Cortex-A35"
  else if (p =? CortexA53) then "Cortex-A53"
  else if (p =? CortexA55) then "Cortex-A55"
  else if (p =? CortexA57) then "Cortex-A57"
  else if (p =? CortexA72) then "Cortex-A72"
  else if (p =? CortexA73) then "Cortex-A73"
  else if (p =? CortexA75) then "Cortex-A75"
  else if (p =? CortexA76) then "Cortex-A76"
  else if (p =? CortexA77) then "Cortex-A77"
  else if (p =? CortexA78) then "Cortex-A78"
  else if (p =? CortexX1) then "Cortex-X1"
  else if (p =? CortexX1C) then "Cortex-X1C"
  else if (p =? NeoverseN1) then "neoverse-n1"
  else if (p =? NeoverseN2) then "neoverse-n2"
  else if (p =? NeoverseV1) then "neoverse-v1"
  else if (p =? Firestorm) then "M1 Firestorm"
  else if (p =? Icestorm) then "M1 Icestorm"
  else "generic".

(** Broadcom/Cavium *)
Definition ThunderX2T99 : Part := 0x516.
Definition ThunderX2T99_2 : Part := 0xaf.
Definition ThunderXT88 : Part := 0xa1.

Definition broadcomPartName (p : Part) : string :=
  if (p =? ThunderX2T99) || (p =? ThunderX2T99_2) then "ThunderX2T99"
  else if (p =? ThunderXT88) then "ThunderXT88"
  else "generic".

(** Fujitsu *)
Definition A64FX : Part := 0x001.

Definition fujitsuPartName (p : Part) : string :=
  if (p =? A64FX) then "A64FX"
  else "generic".

(** NVIDIA *)
Definition Carmel : Part := 0x004.

Definition nvidiaPartName (p : Part) : string :=
  if (p =? Carmel) then "Carmel"
  else "generic".

(** HiSilicon *)
Definition TSV110 : Part := 0xd01.

Definition hiSiliconPartName (p : Part) : string :=
  if (p =? TSV110) then "TSV110"
  else "generic".

(** Qualcomm *)
Definition Krait : Part := 0x06f.
Definition Kryo : Part := 0x201.
Definition Kryo_2 : Part := 0x205.
Definition Kryo_3 : Part := 0x211.
Definition Kryo2xxGold : Part := 0x800.
Definition Kryo2xxSilver : Part := 0x801.
Definition Kryo3xxGold : Part := 0x802.
Definition Kryo3xxSilver : Part := 0x803.
Definition Kryo4xxGold : Part := 0x804.
Definition Kryo4xxSilver : Part := 0x805.
Definition Falkor : Part := 0xc00.
Definition Saphira : Part := 0xc01.

Definition qualcommPartName (p : Part) : string :=
  if (p =? Krait) then "Krait"
  else if (p =? Kryo) || (p =? Kryo_2) || (p =? Kryo_3) then "Kryo"
  else if (p =? Kryo2xxGold) || (p =? Kryo2xxSilver) then "Cortex-A73"
  else if (p =? Kryo3xxGold) || (p =? Kryo3xxSilver) then "Cortex-A75"
  else if (p =? Kryo4xxGold) || (p =? Kryo4xxSilver) then "Cortex-A76"
  else if (p =? Falkor) then "Falkor"
  else if (p =? Saphira) then "Saphira"
  else "generic".

(** Samsung: a switch with the default case only. *)
Definition samsungPartName (p : Part) : string := "generic".

(** The codes each vendor's switch names, in the order of its cases. *)
Definition armParts : list Part :=
  [ARM926EJS; ARM11MPCore; ARM1136JS; ARM1156T2S; ARM1176JZS; CortexA8; CortexA9; CortexA15; CortexM0; CortexM3; CortexM4; CortexM55; CortexA34; CortexA35; CortexA53; CortexA55; CortexA57; CortexA72; CortexA73; CortexA75; CortexA76; CortexA77; CortexA78; CortexX1; CortexX1C; NeoverseN1; NeoverseN2; NeoverseV1; Firestorm; Icestorm].
Definition broadcomParts : list Part := [ThunderX2T99; ThunderX2T99_2; ThunderXT88].
Definition fujitsuParts : list Part := [A64FX].
Definition nvidiaParts : list Part := [Carmel].
Definition hiSiliconParts : list Part := [TSV110].
Definition qualcommParts : list Part :=
  [Krait; Kryo; Kryo_2; Kryo_3; Kryo2xxGold; Kryo2xxSilver; Kryo3xxGold; Kryo3xxSilver; Kryo4xxGold; Kryo4xxSilver; Falkor; Saphira].
Definition samsungParts : list Part := [].

(** ** What the scanner takes from the Go library besides strings

    [strconv.ParseFloat] and [sort.Slice] are not part of this repository.
    The scanner is written over any implementation of them; [float64] stays
    an uninterpreted type. *)

Class Runtime : Type := {
  float64 : Type;
  float64_zero : float64;
  (** the value [strconv.ParseFloat(s, 64)] returns, error dropped *)
  ParseFloat : string -> float64;
  (** [sort.Slice] with the comparison given on elements *)
  sort_Slice : forall A : Type, (A -> A -> bool) -> list A -> list A
}.

(** A comparison [sort.Slice] accepts: a strict weak ordering. *)
Record StrictWeak {A : Type} (less : A -> A -> bool) : Prop := {
  sw_irrefl : forall x, less x x = false;
  sw_trans : forall x y z, less x y = true -> less y z = true -> less x z = true;
  sw_incomp : forall x y z, less x y = false -> less y z = false -> less x z = false
}.

(** What the documentation of [sort.Slice] promises: the elements are
    rearranged so that none is less than one before it.  Stability is
    explicitly not promised. *)
Record SortContract (R : Runtime) : Prop := {
  sort_perm : forall (A : Type) (less : A -> A -> bool) (l : list A),
      Permutation l (sort_Slice A less l);
  sort_sorted : forall (A : Type) (less : A -> A -> bool) (l : list A),
      StrictWeak less ->
      StronglySorted (fun x y => less y x = false) (sort_Slice A less l)
}.

(** [insertionSort_func] of package [sort], which is all that [sort.Slice]
    runs on a slice of fewer than seven elements: each element moves down
    while it is less than its predecessor.  [r] is the sorted prefix, last
    element first. *)
Fixpoint insertDown {A : Type} (less : A -> A -> bool) (x : A) (r : list A) : list A :=
  match r with
  | [] => [x]
  | y :: r' => if less x y then y :: insertDown less x r' else x :: r
  end.

Definition insertionSort (A : Type) (less : A -> A -> bool) (l : list A) : list A :=
  List.rev (fold_left (fun r x => insertDown less x r) l []).

(** ** The report *)

Record Cache : Type := mkCache {
  Inst : Z;
  L1 : Z;
  L2 : Z;
  L3 : Z;
  Alignment : Z;
  Flush : Z
}.

Record AddrSizes : Type := mkAddrSizes { Phys : Z; Virt : Z }.

Record TLB : Type := mkTLB { TLB_N : Z; PageSize : Z }.

(** [Pair] is a miscellaneous piece of data reported by the host. *)
Record Pair : Type := mkPair { Key : string; Value : string }.

Definition set_L2 (v : Z) (c : Cache) : Cache :=
  {| Inst := Inst c; L1 := L1 c; L2 := v; L3 := L3 c; Alignment := Alignment c; Flush :=
     Flush c |}.

Definition set_Alignment (v : Z) (c : Cache) : Cache :=
  {| Inst := Inst c; L1 := L1 c; L2 := L2 c; L3 := L3 c; Alignment := v; Flush := Flush c |}.

Definition set_Flush (v : Z) (c : Cache) : Cache :=
  {| Inst := Inst c; L1 := L1 c; L2 := L2 c; L3 := L3 c; Alignment := Alignment c; Flush :=
     v |}.

Section Sysinfo.

Context {R : Runtime}.

(** [CPU] describes a single CPU. *)
Record CPU : Type := mkCPU {
  Proc : Z;
  BogoMIPS : float64;
  Features : list string;
  Rev : Z;
  ModelName : string;
  MicroArch : string;
  Impl : Implementer;
  Arch : Z;
  Variant : Z;
  CPU_Part : Part;
  VendorID : string;
  Family : Z;
  Model : Z;
  Microcode : Z;
  Freq : float64;
  CPU_Cache : Cache;
  PhysID : Z;
  Siblings : Z;
  CoreID : Z;
  Cores : Z;
  APICID : Z;
  InitAPICID : Z;
  FPU : bool;
  FPUExceptions : bool;
  CPUIDLevel : Z;
  WP : bool;
  Bugs : list string;
  CPU_AddrSizes : AddrSizes;
  PowerMgmt : string;
  CPU_TLB : TLB
}.

Record Info : Type := mkInfo { CPUs : list CPU; Misc : list Pair }.

(** Field assignments [c.F = v]. *)
Definition set_Proc (v : Z) (c : CPU) : CPU :=
  {| Proc := v; BogoMIPS := BogoMIPS c; Features := Features c; Rev := Rev c; ModelName :=
     ModelName c; MicroArch := MicroArch c; Impl := Impl c; Arch := Arch c; Variant :=
     Variant c; CPU_Part := CPU_Part c; VendorID := VendorID c; Family := Family c; Model :=
     Model c; Microcode := Microcode c; Freq := Freq c; CPU_Cache := CPU_Cache c; PhysID :=
     PhysID c; Siblings := Siblings c; CoreID := CoreID c; Cores := Cores c; APICID :=
     APICID c; InitAPICID := InitAPICID c; FPU := FPU c; FPUExceptions := FPUExceptions c;
     CPUIDLevel := CPUIDLevel c; WP := WP c; Bugs := Bugs c; CPU_AddrSizes := CPU_AddrSizes
     c; PowerMgmt := PowerMgmt c; CPU_TLB := CPU_TLB c |}.

Definition set_BogoMIPS (v : float64) (c : CPU) : CPU :=
  {| Proc := Proc c; BogoMIPS := v; Features := Features c; Rev := Rev c; ModelName :=
     ModelName c; MicroArch := MicroArch c; Impl := Impl c; Arch := Arch c; Variant :=
     Variant c; CPU_Part := CPU_Part c; VendorID := VendorID c; Family := Family c; Model :=
     Model c; Microcode := Microcode c; Freq := Freq c; CPU_Cache := CPU_Cache c; PhysID :=
     PhysID c; Siblings := Siblings c; CoreID := CoreID c; Cores := Cores c; APICID :=
     APICID c; InitAPICID := InitAPICID c; FPU := FPU c; FPUExceptions := FPUExceptions c;
     CPUIDLevel := CPUIDLevel c; WP := WP c; Bugs := Bugs c; CPU_AddrSizes := CPU_AddrSizes
     c; PowerMgmt := PowerMgmt c; CPU_TLB := CPU_TLB c |}.

Definition set_Features (v : list string) (c : CPU) : CPU :=
  {| Proc := Proc c; BogoMIPS := BogoMIPS c; Features := v; Rev := Rev c; ModelName :=
     ModelName c; MicroArch := MicroArch c; Impl := Impl c; Arch := Arch c; Variant :=
     Variant c; CPU_Part := CPU_Part c; VendorID := VendorID c; Family := Family c; Model :=
     Model c; Microcode := Microcode c; Freq := Freq c; CPU_Cache := CPU_Cache c; PhysID :=
     PhysID c; Siblings := Siblings c; CoreID := CoreID c; Cores := Cores c; APICID :=
     APICID c; InitAPICID := InitAPICID c; FPU := FPU c; FPUExceptions := FPUExceptions c;
     CPUIDLevel := CPUIDLevel c; WP := WP c; Bugs := Bugs c; CPU_AddrSizes := CPU_AddrSizes
     c; PowerMgmt := PowerMgmt c; CPU_TLB := CPU_TLB c |}.

Definition set_Rev (v : Z) (c : CPU) : CPU :=
  {| Proc := Proc c; BogoMIPS := BogoMIPS c; Features := Features c; Rev := v; ModelName :=
     ModelName c; MicroArch := MicroArch c; Impl := Impl c; Arch := Arch c; Variant :=
     Variant c; CPU_Part := CPU_Part c; VendorID := VendorID c; Family := Family c; Model :=
     Model c; Microcode := Microcode c; Freq := Freq c; CPU_Cache := CPU_Cache c; PhysID :=
     PhysID c; Siblings := Siblings c; CoreID := CoreID c; Cores := Cores c; APICID :=
     APICID c; InitAPICID := InitAPICID c; FPU := FPU c; FPUExceptions := FPUExceptions c;
     CPUIDLevel := CPUIDLevel c; WP := WP c; Bugs := Bugs c; CPU_AddrSizes := CPU_AddrSizes
     c; PowerMgmt := PowerMgmt c; CPU_TLB := CPU_TLB c |}.

Definition set_ModelName (v : string) (c : CPU) : CPU :=
  {| Proc := Proc c; BogoMIPS := BogoMIPS c; Features := Features c; Rev := Rev c; ModelName
     := v; MicroArch := MicroArch c; Impl := Impl c; Arch := Arch c; Variant := Variant c;
     CPU_Part := CPU_Part c; VendorID := VendorID c; Family := Family c; Model := Model c;
     Microcode := Microcode c; Freq := Freq c; CPU_Cache := CPU_Cache c; PhysID := PhysID c;
     Siblings := Siblings c; CoreID := CoreID c; Cores := Cores c; APICID := APICID c;
     InitAPICID := InitAPICID c; FPU := FPU c; FPUExceptions := FPUExceptions c; CPUIDLevel
     := CPUIDLevel c; WP := WP c; Bugs := Bugs c; CPU_AddrSizes := CPU_AddrSizes c;
     PowerMgmt := PowerMgmt c; CPU_TLB := CPU_TLB c |}.

Definition set_Impl (v : Implementer) (c : CPU) : CPU :=
  {| Proc := Proc c; BogoMIPS := BogoMIPS c; Features := Features c; Rev := Rev c; ModelName
     := ModelName c; MicroArch := MicroArch c; Impl := v; Arch := Arch c; Variant := Variant
     c; CPU_Part := CPU_Part c; VendorID := VendorID c; Family := Family c; Model := Model
     c; Microcode := Microcode c; Freq := Freq c; CPU_Cache := CPU_Cache c; PhysID := PhysID
     c; Siblings := Siblings c; CoreID := CoreID c; Cores := Cores c; APICID := APICID c;
     InitAPICID := InitAPICID c; FPU := FPU c; FPUExceptions := FPUExceptions c; CPUIDLevel
     := CPUIDLevel c; WP := WP c; Bugs := Bugs c; CPU_AddrSizes := CPU_AddrSizes c;
     PowerMgmt := PowerMgmt c; CPU_TLB := CPU_TLB c |}.

Definition set_Arch (v : Z) (c : CPU) : CPU :=
  {| Proc := Proc c; BogoMIPS := BogoMIPS c; Features := Features c; Rev := Rev c; ModelName
     := ModelName c; MicroArch := MicroArch c; Impl := Impl c; Arch := v; Variant := Variant
     c; CPU_Part := CPU_Part c; VendorID := VendorID c; Family := Family c; Model := Model
     c; Microcode := Microcode c; Freq := Freq c; CPU_Cache := CPU_Cache c; PhysID := PhysID
     c; Siblings := Siblings c; CoreID := CoreID c; Cores := Cores c; APICID := APICID c;
     InitAPICID := InitAPICID c; FPU := FPU c; FPUExceptions := FPUExceptions c; CPUIDLevel
     := CPUIDLevel c; WP := WP c; Bugs := Bugs c; CPU_AddrSizes := CPU_AddrSizes c;
     PowerMgmt := PowerMgmt c; CPU_TLB := CPU_TLB c |}.

Definition set_Variant (v : Z) (c : CPU) : CPU :=
  {| Proc := Proc c; BogoMIPS := BogoMIPS c; Features := Features c; Rev := Rev c; ModelName
     := ModelName c; MicroArch := MicroArch c; Impl := Impl c; Arch := Arch c; Variant := v;
     CPU_Part := CPU_Part c; VendorID := VendorID c; Family := Family c; Model := Model c;
     Microcode := Microcode c; Freq := Freq c; CPU_Cache := CPU_Cache c; PhysID := PhysID c;
     Siblings := Siblings c; CoreID := CoreID c; Cores := Cores c; APICID := APICID c;
     InitAPICID := InitAPICID c; FPU := FPU c; FPUExceptions := FPUExceptions c; CPUIDLevel
     := CPUIDLevel c; WP := WP c; Bugs := Bugs c; CPU_AddrSizes := CPU_AddrSizes c;
     PowerMgmt := PowerMgmt c; CPU_TLB := CPU_TLB c |}.

Definition set_CPU_Part (v : Part) (c : CPU) : CPU :=
  {| Proc := Proc c; BogoMIPS := BogoMIPS c; Features := Features c; Rev := Rev c; ModelName
     := ModelName c; MicroArch := MicroArch c; Impl := Impl c; Arch := Arch c; Variant :=
     Variant c; CPU_Part := v; VendorID := VendorID c; Family := Family c; Model := Model c;
     Microcode := Microcode c; Freq := Freq c; CPU_Cache := CPU_Cache c; PhysID := PhysID c;
     Siblings := Siblings c; CoreID := CoreID c; Cores := Cores c; APICID := APICID c;
     InitAPICID := InitAPICID c; FPU := FPU c; FPUExceptions := FPUExceptions c; CPUIDLevel
     := CPUIDLevel c; WP := WP c; Bugs := Bugs c; CPU_AddrSizes := CPU_AddrSizes c;
     PowerMgmt := PowerMgmt c; CPU_TLB := CPU_TLB c |}.

Definition set_VendorID (v : string) (c : CPU) : CPU :=
  {| Proc := Proc c; BogoMIPS := BogoMIPS c; Features := Features c; Rev := Rev c; ModelName
     := ModelName c; MicroArch := MicroArch c; Impl := Impl c; Arch := Arch c; Variant :=
     Variant c; CPU_Part := CPU_Part c; VendorID := v; Family := Family c; Model := Model c;
     Microcode := Microcode c; Freq := Freq c; CPU_Cache := CPU_Cache c; PhysID := PhysID c;
     Siblings := Siblings c; CoreID := CoreID c; Cores := Cores c; APICID := APICID c;
     InitAPICID := InitAPICID c; FPU := FPU c; FPUExceptions := FPUExceptions c; CPUIDLevel
     := CPUIDLevel c; WP := WP c; Bugs := Bugs c; CPU_AddrSizes := CPU_AddrSizes c;
     PowerMgmt := PowerMgmt c; CPU_TLB := CPU_TLB c |}.

Definition set_Family (v : Z) (c : CPU) : CPU :=
  {| Proc := Proc c; BogoMIPS := BogoMIPS c; Features := Features c; Rev := Rev c; ModelName
     := ModelName c; MicroArch := MicroArch c; Impl := Impl c; Arch := Arch c; Variant :=
     Variant c; CPU_Part := CPU_Part c; VendorID := VendorID c; Family := v; Model := Model
     c; Microcode := Microcode c; Freq := Freq c; CPU_Cache := CPU_Cache c; PhysID := PhysID
     c; Siblings := Siblings c; CoreID := CoreID c; Cores := Cores c; APICID := APICID c;
     InitAPICID := InitAPICID c; FPU := FPU c; FPUExceptions := FPUExceptions c; CPUIDLevel
     := CPUIDLevel c; WP := WP c; Bugs := Bugs c; CPU_AddrSizes := CPU_AddrSizes c;
     PowerMgmt := PowerMgmt c; CPU_TLB := CPU_TLB c |}.

Definition set_Model (v : Z) (c : CPU) : CPU :=
  {| Proc := Proc c; BogoMIPS := BogoMIPS c; Features := Features c; Rev := Rev c; ModelName
     := ModelName c; MicroArch := MicroArch c; Impl := Impl c; Arch := Arch c; Variant :=
     Variant c; CPU_Part := CPU_Part c; VendorID := VendorID c; Family := Family c; Model :=
     v; Microcode := Microcode c; Freq := Freq c; CPU_Cache := CPU_Cache c; PhysID := PhysID
     c; Siblings := Siblings c; CoreID := CoreID c; Cores := Cores c; APICID := APICID c;
     InitAPICID := InitAPICID c; FPU := FPU c; FPUExceptions := FPUExceptions c; CPUIDLevel
     := CPUIDLevel c; WP := WP c; Bugs := Bugs c; CPU_AddrSizes := CPU_AddrSizes c;
     PowerMgmt := PowerMgmt c; CPU_TLB := CPU_TLB c |}.

Definition set_Microcode (v : Z) (c : CPU) : CPU :=
  {| Proc := Proc c; BogoMIPS := BogoMIPS c; Features := Features c; Rev := Rev c; ModelName
     := ModelName c; MicroArch := MicroArch c; Impl := Impl c; Arch := Arch c; Variant :=
     Variant c; CPU_Part := CPU_Part c; VendorID := VendorID c; Family := Family c; Model :=
     Model c; Microcode := v; Freq := Freq c; CPU_Cache := CPU_Cache c; PhysID := PhysID c;
     Siblings := Siblings c; CoreID := CoreID c; Cores := Cores c; APICID := APICID c;
     InitAPICID := InitAPICID c; FPU := FPU c; FPUExceptions := FPUExceptions c; CPUIDLevel
     := CPUIDLevel c; WP := WP c; Bugs := Bugs c; CPU_AddrSizes := CPU_AddrSizes c;
     PowerMgmt := PowerMgmt c; CPU_TLB := CPU_TLB c |}.

Definition set_Freq (v : float64) (c : CPU) : CPU :=
  {| Proc := Proc c; BogoMIPS := BogoMIPS c; Features := Features c; Rev := Rev c; ModelName
     := ModelName c; MicroArch := MicroArch c; Impl := Impl c; Arch := Arch c; Variant :=
     Variant c; CPU_Part := CPU_Part c; VendorID := VendorID c; Family := Family c; Model :=
     Model c; Microcode := Microcode c; Freq := v; CPU_Cache := CPU_Cache c; PhysID :=
     PhysID c; Siblings := Siblings c; CoreID := CoreID c; Cores := Cores c; APICID :=
     APICID c; InitAPICID := InitAPICID c; FPU := FPU c; FPUExceptions := FPUExceptions c;
     CPUIDLevel := CPUIDLevel c; WP := WP c; Bugs := Bugs c; CPU_AddrSizes := CPU_AddrSizes
     c; PowerMgmt := PowerMgmt c; CPU_TLB := CPU_TLB c |}.

Definition set_CPU_Cache (v : Cache) (c : CPU) : CPU :=
  {| Proc := Proc c; BogoMIPS := BogoMIPS c; Features := Features c; Rev := Rev c; ModelName
     := ModelName c; MicroArch := MicroArch c; Impl := Impl c; Arch := Arch c; Variant :=
     Variant c; CPU_Part := CPU_Part c; VendorID := VendorID c; Family := Family c; Model :=
     Model c; Microcode := Microcode c; Freq := Freq c; CPU_Cache := v; PhysID := PhysID c;
     Siblings := Siblings c; CoreID := CoreID c; Cores := Cores c; APICID := APICID c;
     InitAPICID := InitAPICID c; FPU := FPU c; FPUExceptions := FPUExceptions c; CPUIDLevel
     := CPUIDLevel c; WP := WP c; Bugs := Bugs c; CPU_AddrSizes := CPU_AddrSizes c;
     PowerMgmt := PowerMgmt c; CPU_TLB := CPU_TLB c |}.

Definition set_PhysID (v : Z) (c : CPU) : CPU :=
  {| Proc := Proc c; BogoMIPS := BogoMIPS c; Features := Features c; Rev := Rev c; ModelName
     := ModelName c; MicroArch := MicroArch c; Impl := Impl c; Arch := Arch c; Variant :=
     Variant c; CPU_Part := CPU_Part c; VendorID := VendorID c; Family := Family c; Model :=
     Model c; Microcode := Microcode c; Freq := Freq c; CPU_Cache := CPU_Cache c; PhysID :=
     v; Siblings := Siblings c; CoreID := CoreID c; Cores := Cores c; APICID := APICID c;
     InitAPICID := InitAPICID c; FPU := FPU c; FPUExceptions := FPUExceptions c; CPUIDLevel
     := CPUIDLevel c; WP := WP c; Bugs := Bugs c; CPU_AddrSizes := CPU_AddrSizes c;
     PowerMgmt := PowerMgmt c; CPU_TLB := CPU_TLB c |}.

Definition set_Siblings (v : Z) (c : CPU) : CPU :=
  {| Proc := Proc c; BogoMIPS := BogoMIPS c; Features := Features c; Rev := Rev c; ModelName
     := ModelName c; MicroArch := MicroArch c; Impl := Impl c; Arch := Arch c; Variant :=
     Variant c; CPU_Part := CPU_Part c; VendorID := VendorID c; Family := Family c; Model :=
     Model c; Microcode := Microcode c; Freq := Freq c; CPU_Cache := CPU_Cache c; PhysID :=
     PhysID c; Siblings := v; CoreID := CoreID c; Cores := Cores c; APICID := APICID c;
     InitAPICID := InitAPICID c; FPU := FPU c; FPUExceptions := FPUExceptions c; CPUIDLevel
     := CPUIDLevel c; WP := WP c; Bugs := Bugs c; CPU_AddrSizes := CPU_AddrSizes c;
     PowerMgmt := PowerMgmt c; CPU_TLB := CPU_TLB c |}.

Definition set_CoreID (v : Z) (c : CPU) : CPU :=
  {| Proc := Proc c; BogoMIPS := BogoMIPS c; Features := Features c; Rev := Rev c; ModelName
     := ModelName c; MicroArch := MicroArch c; Impl := Impl c; Arch := Arch c; Variant :=
     Variant c; CPU_Part := CPU_Part c; VendorID := VendorID c; Family := Family c; Model :=
     Model c; Microcode := Microcode c; Freq := Freq c; CPU_Cache := CPU_Cache c; PhysID :=
     PhysID c; Siblings := Siblings c; CoreID := v; Cores := Cores c; APICID := APICID c;
     InitAPICID := InitAPICID c; FPU := FPU c; FPUExceptions := FPUExceptions c; CPUIDLevel
     := CPUIDLevel c; WP := WP c; Bugs := Bugs c; CPU_AddrSizes := CPU_AddrSizes c;
     PowerMgmt := PowerMgmt c; CPU_TLB := CPU_TLB c |}.

Definition set_Cores (v : Z) (c : CPU) : CPU :=
  {| Proc := Proc c; BogoMIPS := BogoMIPS c; Features := Features c; Rev := Rev c; ModelName
     := ModelName c; MicroArch := MicroArch c; Impl := Impl c; Arch := Arch c; Variant :=
     Variant c; CPU_Part := CPU_Part c; VendorID := VendorID c; Family := Family c; Model :=
     Model c; Microcode := Microcode c; Freq := Freq c; CPU_Cache := CPU_Cache c; PhysID :=
     PhysID c; Siblings := Siblings c; CoreID := CoreID c; Cores := v; APICID := APICID c;
     InitAPICID := InitAPICID c; FPU := FPU c; FPUExceptions := FPUExceptions c; CPUIDLevel
     := CPUIDLevel c; WP := WP c; Bugs := Bugs c; CPU_AddrSizes := CPU_AddrSizes c;
     PowerMgmt := PowerMgmt c; CPU_TLB := CPU_TLB c |}.

Definition set_APICID (v : Z) (c : CPU) : CPU :=
  {| Proc := Proc c; BogoMIPS := BogoMIPS c; Features := Features c; Rev := Rev c; ModelName
     := ModelName c; MicroArch := MicroArch c; Impl := Impl c; Arch := Arch c; Variant :=
     Variant c; CPU_Part := CPU_Part c; VendorID := VendorID c; Family := Family c; Model :=
     Model c; Microcode := Microcode c; Freq := Freq c; CPU_Cache := CPU_Cache c; PhysID :=
     PhysID c; Siblings := Siblings c; CoreID := CoreID c; Cores := Cores c; APICID := v;
     InitAPICID := InitAPICID c; FPU := FPU c; FPUExceptions := FPUExceptions c; CPUIDLevel
     := CPUIDLevel c; WP := WP c; Bugs := Bugs c; CPU_AddrSizes := CPU_AddrSizes c;
     PowerMgmt := PowerMgmt c; CPU_TLB := CPU_TLB c |}.

Definition set_InitAPICID (v : Z) (c : CPU) : CPU :=
  {| Proc := Proc c; BogoMIPS := BogoMIPS c; Features := Features c; Rev := Rev c; ModelName
     := ModelName c; MicroArch := MicroArch c; Impl := Impl c; Arch := Arch c; Variant :=
     Variant c; CPU_Part := CPU_Part c; VendorID := VendorID c; Family := Family c; Model :=
     Model c; Microcode := Microcode c; Freq := Freq c; CPU_Cache := CPU_Cache c; PhysID :=
     PhysID c; Siblings := Siblings c; CoreID := CoreID c; Cores := Cores c; APICID :=
     APICID c; InitAPICID := v; FPU := FPU c; FPUExceptions := FPUExceptions c; CPUIDLevel
     := CPUIDLevel c; WP := WP c; Bugs := Bugs c; CPU_AddrSizes := CPU_AddrSizes c;
     PowerMgmt := PowerMgmt c; CPU_TLB := CPU_TLB c |}.

Definition set_FPU (v : bool) (c : CPU) : CPU :=
  {| Proc := Proc c; BogoMIPS := BogoMIPS c; Features := Features c; Rev := Rev c; ModelName
     := ModelName c; MicroArch := MicroArch c; Impl := Impl c; Arch := Arch c; Variant :=
     Variant c; CPU_Part := CPU_Part c; VendorID := VendorID c; Family := Family c; Model :=
     Model c; Microcode := Microcode c; Freq := Freq c; CPU_Cache := CPU_Cache c; PhysID :=
     PhysID c; Siblings := Siblings c; CoreID := CoreID c; Cores := Cores c; APICID :=
     APICID c; InitAPICID := InitAPICID c; FPU := v; FPUExceptions := FPUExceptions c;
     CPUIDLevel := CPUIDLevel c; WP := WP c; Bugs := Bugs c; CPU_AddrSizes := CPU_AddrSizes
     c; PowerMgmt := PowerMgmt c; CPU_TLB := CPU_TLB c |}.

Definition set_FPUExceptions (v : bool) (c : CPU) : CPU :=
  {| Proc := Proc c; BogoMIPS := BogoMIPS c; Features := Features c; Rev := Rev c; ModelName
     := ModelName c; MicroArch := MicroArch c; Impl := Impl c; Arch := Arch c; Variant :=
     Variant c; CPU_Part := CPU_Part c; VendorID := VendorID c; Family := Family c; Model :=
     Model c; Microcode := Microcode c; Freq := Freq c; CPU_Cache := CPU_Cache c; PhysID :=
     PhysID c; Siblings := Siblings c; CoreID := CoreID c; Cores := Cores c; APICID :=
     APICID c; InitAPICID := InitAPICID c; FPU := FPU c; FPUExceptions := v; CPUIDLevel :=
     CPUIDLevel c; WP := WP c; Bugs := Bugs c; CPU_AddrSizes := CPU_AddrSizes c; PowerMgmt
     := PowerMgmt c; CPU_TLB := CPU_TLB c |}.

Definition set_CPUIDLevel (v : Z) (c : CPU) : CPU :=
  {| Proc := Proc c; BogoMIPS := BogoMIPS c; Features := Features c; Rev := Rev c; ModelName
     := ModelName c; MicroArch := MicroArch c; Impl := Impl c; Arch := Arch c; Variant :=
     Variant c; CPU_Part := CPU_Part c; VendorID := VendorID c; Family := Family c; Model :=
     Model c; Microcode := Microcode c; Freq := Freq c; CPU_Cache := CPU_Cache c; PhysID :=
     PhysID c; Siblings := Siblings c; CoreID := CoreID c; Cores := Cores c; APICID :=
     APICID c; InitAPICID := InitAPICID c; FPU := FPU c; FPUExceptions := FPUExceptions c;
     CPUIDLevel := v; WP := WP c; Bugs := Bugs c; CPU_AddrSizes := CPU_AddrSizes c;
     PowerMgmt := PowerMgmt c; CPU_TLB := CPU_TLB c |}.

Definition set_WP (v : bool) (c : CPU) : CPU :=
  {| Proc := Proc c; BogoMIPS := BogoMIPS c; Features := Features c; Rev := Rev c; ModelName
     := ModelName c; MicroArch := MicroArch c; Impl := Impl c; Arch := Arch c; Variant :=
     Variant c; CPU_Part := CPU_Part c; VendorID := VendorID c; Family := Family c; Model :=
     Model c; Microcode := Microcode c; Freq := Freq c; CPU_Cache := CPU_Cache c; PhysID :=
     PhysID c; Siblings := Siblings c; CoreID := CoreID c; Cores := Cores c; APICID :=
     APICID c; InitAPICID := InitAPICID c; FPU := FPU c; FPUExceptions := FPUExceptions c;
     CPUIDLevel := CPUIDLevel c; WP := v; Bugs := Bugs c; CPU_AddrSizes := CPU_AddrSizes c;
     PowerMgmt := PowerMgmt c; CPU_TLB := CPU_TLB c |}.

Definition set_Bugs (v : list string) (c : CPU) : CPU :=
  {| Proc := Proc c; BogoMIPS := BogoMIPS c; Features := Features c; Rev := Rev c; ModelName
     := ModelName c; MicroArch := MicroArch c; Impl := Impl c; Arch := Arch c; Variant :=
     Variant c; CPU_Part := CPU_Part c; VendorID := VendorID c; Family := Family c; Model :=
     Model c; Microcode := Microcode c; Freq := Freq c; CPU_Cache := CPU_Cache c; PhysID :=
     PhysID c; Siblings := Siblings c; CoreID := CoreID c; Cores := Cores c; APICID :=
     APICID c; InitAPICID := InitAPICID c; FPU := FPU c; FPUExceptions := FPUExceptions c;
     CPUIDLevel := CPUIDLevel c; WP := WP c; Bugs := v; CPU_AddrSizes := CPU_AddrSizes c;
     PowerMgmt := PowerMgmt c; CPU_TLB := CPU_TLB c |}.

Definition set_CPU_AddrSizes (v : AddrSizes) (c : CPU) : CPU :=
  {| Proc := Proc c; BogoMIPS := BogoMIPS c; Features := Features c; Rev := Rev c; ModelName
     := ModelName c; MicroArch := MicroArch c; Impl := Impl c; Arch := Arch c; Variant :=
     Variant c; CPU_Part := CPU_Part c; VendorID := VendorID c; Family := Family c; Model :=
     Model c; Microcode := Microcode c; Freq := Freq c; CPU_Cache := CPU_Cache c; PhysID :=
     PhysID c; Siblings := Siblings c; CoreID := CoreID c; Cores := Cores c; APICID :=
     APICID c; InitAPICID := InitAPICID c; FPU := FPU c; FPUExceptions := FPUExceptions c;
     CPUIDLevel := CPUIDLevel c; WP := WP c; Bugs := Bugs c; CPU_AddrSizes := v; PowerMgmt
     := PowerMgmt c; CPU_TLB := CPU_TLB c |}.

Definition set_PowerMgmt (v : string) (c : CPU) : CPU :=
  {| Proc := Proc c; BogoMIPS := BogoMIPS c; Features := Features c; Rev := Rev c; ModelName
     := ModelName c; MicroArch := MicroArch c; Impl := Impl c; Arch := Arch c; Variant :=
     Variant c; CPU_Part := CPU_Part c; VendorID := VendorID c; Family := Family c; Model :=
     Model c; Microcode := Microcode c; Freq := Freq c; CPU_Cache := CPU_Cache c; PhysID :=
     PhysID c; Siblings := Siblings c; CoreID := CoreID c; Cores := Cores c; APICID :=
     APICID c; InitAPICID := InitAPICID c; FPU := FPU c; FPUExceptions := FPUExceptions c;
     CPUIDLevel := CPUIDLevel c; WP := WP c; Bugs := Bugs c; CPU_AddrSizes := CPU_AddrSizes
     c; PowerMgmt := v; CPU_TLB := CPU_TLB c |}.

Definition set_CPU_TLB (v : TLB) (c : CPU) : CPU :=
  {| Proc := Proc c; BogoMIPS := BogoMIPS c; Features := Features c; Rev := Rev c; ModelName
     := ModelName c; MicroArch := MicroArch c; Impl := Impl c; Arch := Arch c; Variant :=
     Variant c; CPU_Part := CPU_Part c; VendorID := VendorID c; Family := Family c; Model :=
     Model c; Microcode := Microcode c; Freq := Freq c; CPU_Cache := CPU_Cache c; PhysID :=
     PhysID c; Siblings := Siblings c; CoreID := CoreID c; Cores := Cores c; APICID :=
     APICID c; InitAPICID := InitAPICID c; FPU := FPU c; FPUExceptions := FPUExceptions c;
     CPUIDLevel := CPUIDLevel c; WP := WP c; Bugs := Bugs c; CPU_AddrSizes := CPU_AddrSizes
     c; PowerMgmt := PowerMgmt c; CPU_TLB := v |}.

Definition atof (s : string) : float64 := ParseFloat s.

(** [var c CPU]: every field at its zero value. *)
Definition zeroCPU : CPU :=
  {| Proc := 0; BogoMIPS := float64_zero; Features := []; Rev := 0; ModelName := "";
     MicroArch := ""; Impl := 0; Arch := 0; Variant := 0; CPU_Part := 0; VendorID := "";
     Family := 0; Model := 0; Microcode := 0; Freq := float64_zero;
     CPU_Cache := mkCache 0 0 0 0 0 0; PhysID := 0; Siblings := 0; CoreID := 0; Cores := 0;
     APICID := 0; InitAPICID := 0; FPU := false; FPUExceptions := false; CPUIDLevel := 0;
     WP := false; Bugs := []; CPU_AddrSizes := mkAddrSizes 0 0; PowerMgmt := "";
     CPU_TLB := mkTLB 0 0 |}.

Definition zeroInfo : Info := mkInfo [] [].

(** [CPU.Name]: the implementer selects the part table. *)
Definition Name (c : CPU) : string :=
  if Impl c =? ARMLtd then armPartName (CPU_Part c)
  else if (Impl c =? Broadcom) || (Impl c =? Cavium) then broadcomPartName (CPU_Part c)
  else if Impl c =? Fujitsu then fujitsuPartName (CPU_Part c)
  else if Impl c =? NVIDIA then nvidiaPartName (CPU_Part c)
  else if Impl c =? HiSilicon then hiSiliconPartName (CPU_Part c)
  else if Impl c =? Qualcomm then qualcommPartName (CPU_Part c)
  else if Impl c =? Samsung then samsungPartName (CPU_Part c)
  else "generic".

Definition key_is (k lit : string) : bool := String.eqb k lit.

(** One turn of the loop of [scanProc]: the accumulator [c] and the report
    [o] before and after the line. *)
Definition scanLine (st : CPU * Info) (line : string) : CPU * Info :=
  let '(c, o) := st in
  let '(k, v) := split line in
  if key_is k "" then (c, mkInfo (CPUs o ++ [c])%list (Misc o))
  else if key_is k "processor" then
    (set_Proc (atoi v) c, o)
  else if key_is k "BogoMIPS" || key_is k "bogomips" then
    (set_BogoMIPS (atof v) c, o)
  else if key_is k "Features" then
    (set_Features (Strings.Split_space v) c, o)
  else if key_is k "CPU implementer" then
    (set_Impl (to_Implementer (atoi v)) c, o)
  else if key_is k "CPU architecture" then
    (set_Arch (atoi v) c, o)
  else if key_is k "CPU variant" then
    (set_Variant (atoi v) c, o)
  else if key_is k "CPU part" then
    (set_CPU_Part (to_Part (atoi v)) c, o)
  else if key_is k "CPU revision" || key_is k "stepping" then
    (set_Rev (atoi v) c, o)
  else if key_is k "model name" then
    (set_ModelName v c, o)
  else if key_is k "vendor_id" then
    (set_VendorID v c, o)
  else if key_is k "cpu family" then
    (set_Family (atoi v) c, o)
  else if key_is k "model" then
    (set_Model (atoi v) c, o)
  else if key_is k "microcode" then
    (set_Microcode (atoi v) c, o)
  else if key_is k "cpu MHz" then
    (set_Freq (atof v) c, o)
  else if key_is k "cache size" then
    (set_CPU_Cache (set_L2 (parseSize v) (CPU_Cache c)) c, o)
  else if key_is k "physical id" then
    (set_PhysID (atoi v) c, o)
  else if key_is k "siblings" then
    (set_Siblings (atoi v) c, o)
  else if key_is k "core id" then
    (set_CoreID (atoi v) c, o)
  else if key_is k "cpu cores" then
    (set_Cores (atoi v) c, o)
  else if key_is k "apicid" then
    (set_APICID (atoi v) c, o)
  else if key_is k "initial apicid" then
    (set_InitAPICID (atoi v) c, o)
  else if key_is k "fpu" then
    (set_FPU (parseBool v) c, o)
  else if key_is k "fpu_exception" then
    (set_FPUExceptions (parseBool v) c, o)
  else if key_is k "cpuid level" then
    (set_CPUIDLevel (atoi v) c, o)
  else if key_is k "wp" then
    (set_WP (parseBool v) c, o)
  else if key_is k "flags" then
    (set_Features (Strings.Split_space v) c, o)
  else if key_is k "bugs" then
    (set_Bugs (Strings.Split_space v) c, o)
  else if key_is k "clflush size" then
    (set_CPU_Cache (set_Flush (atoi v) (CPU_Cache c)) c, o)
  else if key_is k "cache_alignment" then
    (set_CPU_Cache (set_Alignment (atoi v) (CPU_Cache c)) c, o)
  else if key_is k "address sizes" then
    (let '(phys, virt) := parseAddrSizes v in set_CPU_AddrSizes (mkAddrSizes phys virt) c, o)
  else if key_is k "power management" then
    (set_PowerMgmt v c, o)
  else if key_is k "TLB size" then
    (let '(n, page) := parseTLB v in set_CPU_TLB (mkTLB n page) c, o)
  else (c, mkInfo (CPUs o) (Misc o ++ [mkPair k v])%list).

Definition scanLoop (lines : list string) (st : CPU * Info) : CPU * Info :=
  fold_left scanLine lines st.

Definition lessProc (a b : CPU) : bool := Proc a <? Proc b.
Definition lessKey (a b : Pair) : bool := Strings.ltb (Key a) (Key b).

(** The two [sort.Slice] calls that end [scanProc]. *)
Definition sortInfo (o : Info) : Info :=
  mkInfo (sort_Slice CPU lessProc (CPUs o)) (sort_Slice Pair lessKey (Misc o)).

(** [scanProc] on the lines the scanner delivers. *)
Definition scanRecords (o : Info) (lines : list string) : Info :=
  sortInfo (snd (scanLoop lines (zeroCPU, o))).

(** [scanProc(o, buf)]: the report [o] after the call. *)
Definition scanProc (o : Info) (buf : string) : Info :=
  scanRecords o (Bufio.lines buf).

(** [detect] on Linux, given what reading /proc/cpuinfo returned
    ([None] for an error). *)
Definition detect (file : option string) : Info :=
  match file with
  | None => zeroInfo
  | Some buf => scanProc zeroInfo buf
  end.

End Sysinfo.

Arguments CPU : clear implicits.
Arguments Info : clear implicits.

(** The scanner run on short inputs: [sort.Slice] as the insertion sort it
    is below seven elements, float fields left uninterpreted. *)
Definition smallRuntime : Runtime :=
  {| float64 := unit; float64_zero := tt; ParseFloat := fun _ => tt;
     sort_Slice := insertionSort |}.

Definition LF : string := String (ascii_of_nat 10) EmptyString.


(** ** [Implementer.String], as [stringer] generated it *)

(** [strconv.FormatInt(x, 10)], which is also what [%d] prints. *)
Definition FormatInt (x : Z) : string := NilZero.string_of_int (Z.to_int x).

Definition _Implementer_name_0 : string := "ARM LtdBroadcomCavium".
Definition _Implementer_name_1 : string := "Fujitsu Ltd".
Definition _Implementer_name_2 : string := "HiSilicon Technologies Inc".
Definition _Implementer_name_3 : string := "NVIDIA Corporation".
Definition _Implementer_name_4 : string := "Qualcomm Technologies Inc".
Definition _Implementer_name_5 : string := "Samsung Technologies Inc".
Definition _Implementer_name_6 : string := "Apple Inc".
Definition _Implementer_name_7 : string := "Intel ARM parts".

Definition _Implementer_index_0 : list Z := [0; 7; 15; 21].

(** [a[i]] on an array of [uint8]: [None] stands for the run-time panic of
    an index out of range. *)
Definition index_at (a : list Z) (i : Z) : option Z :=
  if (0 <=? i) && (i <? Z.of_nat (List.length a)) then nth_error a (Z.to_nat i)
  else None.

(** [s[lo:hi]], which panics unless [0 <= lo <= hi <= len(s)]. *)
Definition slice (s : string) (lo hi : Z) : option string :=
  if (0 <=? lo) && (lo <=? hi) && (hi <=? Strings.len s)
  then Some (Strings.slice_to (Strings.slice_from s lo) (hi - lo))
  else None.

(** [Implementer.String]; the arithmetic on [i] is that of a [uint8]. *)
Definition Implementer_String (i : Implementer) : option string :=
  if (65 <=? i) && (i <=? 67) then
    let i := to_Implementer (i - 65) in
    match index_at _Implementer_index_0 i,
          index_at _Implementer_index_0 (to_Implementer (i + 1)) with
    | Some lo, Some hi => slice _Implementer_name_0 lo hi
    | _, _ => None
    end
  else if i =? 70 then Some _Implementer_name_1
  else if i =? 72 then Some _Implementer_name_2
  else if i =? 78 then Some _Implementer_name_3
  else if i =? 81 then Some _Implementer_name_4
  else if i =? 83 then Some _Implementer_name_5
  else if i =? 97 then Some _Implementer_name_6
  else if i =? 105 then Some _Implementer_name_7
  else Some ("Implementer(" ++ FormatInt i ++ ")").

(** [Implementer.MarshalText]: the bytes of [String] and a nil error
    ([None] in the second component). *)
Definition MarshalText (i : Implementer) : option (string * option string) :=
  match Implementer_String i with
  | Some s => Some (s, None)
  | None => None
  end.

(** ** Detection on macOS *)

(** Package [unix] as the host answers it: each call returns a value and
    whether it failed. *)
Record Unix : Type := mkUnix {
  unix_Sysctl : string -> string * bool;
  unix_SysctlUint32 : string -> Z * bool;
  unix_SysctlUint64 : string -> Z * bool;
  unix_SysctlRaw : string -> string * bool
}.

Definition famFireIce : Z := 0x1b588bb3.

(** [sysctl], [sysctl32], [sysctl64]: the error is looked at only to print
    it when [debug] is set, which it is not. *)
Definition sysctl (U : Unix) (s : string) : string := fst (unix_Sysctl U s).
Definition sysctl32 (U : Unix) (s : string) : Z := fst (unix_SysctlUint32 U s) mod 2 ^ 32.
Definition sysctl64 (U : Unix) (s : string) : Z := fst (unix_SysctlUint64 U s) mod 2 ^ 64.

(** [binary.LittleEndian.Uint64(b)]: panics on fewer than eight bytes. *)
Definition Uint64 (b : string) : option Z :=
  match b with
  | String b0 (String b1 (String b2 (String b3
      (String b4 (String b5 (String b6 (String b7 _))))))) =>
      Some (Z.lor (Z.lor (Z.lor (Z.lor (Z.lor (Z.lor (Z.lor
             (byte_of b0)
             (Z.shiftl (byte_of b1) 8))
             (Z.shiftl (byte_of b2) 16))
             (Z.shiftl (byte_of b3) 24))
             (Z.shiftl (byte_of b4) 32))
             (Z.shiftl (byte_of b5) 40))
             (Z.shiftl (byte_of b6) 48))
             (Z.shiftl (byte_of b7) 56))
  | _ => None
  end.

(** The loop of [cacheconfig]: [s[i] = Uint64(v[i*8:])] for the [n] indices
    from [i] on. *)
Fixpoint cacheconfig_loop (v : string) (n : nat) (i : Z) : option (list Z) :=
  match n with
  | O => Some []
  | S n' =>
      if (0 <=? i * 8) && (i * 8 <=? Strings.len v) then
        match Uint64 (Strings.slice_from v (i * 8)), cacheconfig_loop v n' (i + 1) with
        | Some x, Some r => Some (x :: r)
        | _, _ => None
        end
      else None
  end.

(** [cacheconfig]: the raw value of [hw.cacheconfig] as [uint64]s. *)
Definition cacheconfig (U : Unix) : option (list Z) :=
  let v := fst (unix_SysctlRaw U "hw.cacheconfig") in
  cacheconfig_loop v (Z.to_nat (Strings.len v / 8)) 0.

Section Darwin.

Context {R : Runtime}.

(** [CPU.String]: [fmt.Sprintf("%s %s", c.Impl, c.Name())]. *)
Definition CPU_String (c : CPU R) : option string :=
  match Implementer_String (Impl c) with
  | Some s => Some (s ++ " " ++ Name c)
  | None => None
  end.

(** The record that the inner loop of [detectM1] builds. *)
Definition m1CPU (proc lvl : Z) (brand : string) (cache : Cache) (vaddr : Z) : CPU R :=
  {| Proc := proc; BogoMIPS := float64_zero; Features := []; Rev := 0;
     ModelName := brand;
     MicroArch := if lvl =? 0 then "Firestorm" else "Icestorm";
     Impl := Apple; Arch := 8; Variant := 0; CPU_Part := 0; VendorID := "";
     Family := 0; Model := famFireIce; Microcode := 0; Freq := float64_zero;
     CPU_Cache := cache; PhysID := 0; Siblings := 0; CoreID := 0; Cores := 0;
     APICID := 0; InitAPICID := 0; FPU := false; FPUExceptions := false;
     CPUIDLevel := 0; WP := false; Bugs := [];
     CPU_AddrSizes := mkAddrSizes 0 (wrap_int vaddr); PowerMgmt := "";
     CPU_TLB := mkTLB 0 0 |}.

(** [for i := 0; i < cores; i++]: [n] turns left, each appending a record
    whose [Proc] is the length of the sequence so far. *)
Fixpoint coreLoop (n : nat) (lvl : Z) (brand : string) (cache : Cache) (vaddr : Z)
         (cpus : list (CPU R)) : list (CPU R) :=
  match n with
  | O => cpus
  | S n' =>
      coreLoop n' lvl brand cache vaddr
        (cpus ++ [m1CPU (Z.of_nat (List.length cpus)) lvl brand cache vaddr])%list
  end.

Definition perflevel (lvl : Z) (name : string) : string :=
  "hw.perflevel" ++ FormatInt lvl ++ name.

(** [for lvl := 0; lvl < lvls; lvl++]: [n] turns left, at level [lvl]. *)
Fixpoint levelLoop (U : Unix) (n : nat) (lvl : Z) (brand : string) (align vaddr : Z)
         (cpus : list (CPU R)) : list (CPU R) :=
  match n with
  | O => cpus
  | S n' =>
      let cache :=
        {| Inst := sysctl32 U (perflevel lvl ".l1icachesize");
           L1 := sysctl32 U (perflevel lvl ".l1dcachesize");
           L2 := sysctl32 U (perflevel lvl ".l2cachesize");
           L3 := 0;
           Alignment := wrap_int align;
           Flush := 0 |} in
      let cores := sysctl32 U (perflevel lvl ".physicalcpu") in
      levelLoop U n' (lvl + 1) brand align vaddr
        (coreLoop (Z.to_nat cores) lvl brand cache vaddr cpus)
  end.

Definition detectM1 (U : Unix) (o : Info R) : Info R :=
  let brand := sysctl U "machdep.cpu.brand_string" in
  let sub := sysctl32 U "hw.cpusubfamily" in
  let brand :=
    if sub =? 2 then brand
    else if sub =? 4 then brand ++ " Pro"
    else if sub =? 5 then brand ++ " Max"
    else brand in
  let vaddr := sysctl32 U "machdep.virtual_address_size" in
  let align := sysctl64 U "hw.cachelinesize" in
  let lvls := sysctl32 U "hw.nperflevels" in
  mkInfo (levelLoop U (Z.to_nat lvls) 0 brand align vaddr (CPUs o))
         (Misc o ++ [mkPair "Model" (sysctl U "hw.model")])%list.

(** [detect] on macOS. *)
Definition detect_darwin (U : Unix) : Info R :=
  let v := mkInfo [] [mkPair "Kernel Version" (sysctl U "kern.version");
                      mkPair "OS Version" (sysctl U "kern.osversion")] in
  if sysctl32 U "hw.cpufamily" =? famFireIce then detectM1 U v else v.

End Darwin.

(** ** Vocabulary of the statements *)

(** [c] occurs in [s]. *)
Fixpoint hasByte (c : ascii) (s : string) : bool :=
  match s with
  | EmptyString => false
  | String a s' => Ascii.eqb a c || hasByte c s'
  end.

(** The value of a digit character, decimal or hexadecimal. *)
Definition digitValue (a : ascii) : option Z :=
  let c := byte_of a in
  if (48 <=? c) && (c <=? 57) then Some (c - 48)
  else if (97 <=? c) && (c <=? 102) then Some (c - 87)
  else if (65 <=? c) && (c <=? 70) then Some (c - 55)
  else None.

(** The number that the digits of [s] denote in [base], continuing from
    [acc]; [None] when a character is no digit of that base. *)
Fixpoint textValue (base acc : Z) (s : string) : option Z :=
  match s with
  | EmptyString => Some acc
  | String a s' =>
      match digitValue a with
      | Some d => if d <? base then textValue base (acc * base + d) s' else None
      | None => None
      end
  end.

(** Unsigned numeric text as the specification has it: decimal digits, or
    hexadecimal digits after [0x]; its numeric value.  Decimal text is taken
    without a leading zero (["0"] itself apart). *)
Definition numeralValue (s : string) : option Z :=
  match s with
  | EmptyString => None
  | String a rest =>
      if byte_of a =? 48 then
        match rest with
        | EmptyString => Some 0
        | String x h =>
            if ((byte_of x =? 120) || (byte_of x =? 88))
               && negb (String.eqb h "")
            then textValue 16 0 h else None
        end
      else textValue 10 0 s
  end.

(** Decimal text with leading zeros allowed, read in base ten. *)
Definition decimalValue (s : string) : option Z :=
  match s with
  | EmptyString => None
  | _ => textValue 10 0 s
  end.

(** [s] begins, or ends, with one of the ASCII white space bytes. *)
Definition startsWithSpace (s : string) : bool :=
  match s with
  | String c _ => Strings.asciiSpace c
  | EmptyString => false
  end.

Definition endsWithSpace (s : string) : bool := startsWithSpace (Strings.rev s).

(** The number of lines whose key is empty. *)
Definition countSeparators (lines : list string) : nat :=
  List.length (filter (fun l => key_is (fst (split l)) "") lines).

(** The part table that [CPU.Name] selects for an implementer, if any. *)
Definition partTable (i : Implementer) : option (list Part) :=
  if i =? ARMLtd then Some armParts
  else if (i =? Broadcom) || (i =? Cavium) then Some broadcomParts
  else if i =? Fujitsu then Some fujitsuParts
  else if i =? NVIDIA then Some nvidiaParts
  else if i =? HiSilicon then Some hiSiliconParts
  else if i =? Qualcomm then Some qualcommParts
  else if i =? Samsung then Some samsungParts
  else None.

(** Sample buffers. *)
Definition line (s : string) : string := s ++ LF.

(** One record of an ARM board. *)
Definition buf_cortex_a72 : string :=
  line "processor	: 0" ++ line "CPU implementer	: 0x41" ++ line "CPU part	: 0xd08"
  ++ line "CPU architecture: 8" ++ line "cache size	: 16384 KB"
  ++ line "TLB size	: 1024 4K pages"
  ++ line "address sizes	: 40 bits physical, 48 bits virtual" ++ line "".


(** A record closed by a blank line, then one that is not. *)
Definition buf_trailing : string :=
  line "processor	: 0" ++ line "" ++ line "processor	: 1" ++ "model name	: Y".

(** Records given out of order. *)
Definition buf_unordered : string :=
  line "processor	: 1" ++ line "Serial	: 9" ++ line ""
  ++ line "processor	: 0" ++ line "Hardware	: B" ++ line "".

(** The records of [buf_unordered], in order. *)
Definition buf_ordered : string :=
  line "Hardware	: B" ++ line "processor	: 0" ++ line ""
  ++ line "processor	: 1" ++ line "Serial	: 9" ++ line "".

(** The same two unrecognised pairs under one key, in either order. *)
Definition buf_pairs_ab : string := line "k: a" ++ line "k: b".
Definition buf_pairs_ba : string := line "k: b" ++ line "k: a".

(** The ten implementer constants. *)
Definition implementers : list Implementer :=
  [ARMLtd; Broadcom; Cavium; Fujitsu; NVIDIA; HiSilicon; Qualcomm; Samsung; Intel; Apple].

(** Every value of a [uint8]. *)
Definition uint8s : list Z := map Z.of_nat (seq 0 256).

(** The cores that [hw.perflevel<lvl>.physicalcpu] reports, and their sum
    over [n] levels from [lvl] on. *)
Definition coreCount (U : Unix) (lvl : Z) : nat :=
  Z.to_nat (sysctl32 U (perflevel lvl ".physicalcpu")).

Fixpoint totalCores (U : Unix) (n : nat) (lvl : Z) : nat :=
  match n with
  | O => O
  | S n' => (coreCount U lvl + totalCores U n' (lvl + 1))%nat
  end.

Definition perfLevels (U : Unix) : nat := Z.to_nat (sysctl32 U "hw.nperflevels").

(** A host that answers like an M1 with four cores on each of two levels,
    and a host on which every query fails. *)
Definition m1Host : Unix :=
  {| unix_Sysctl := fun s =>
       if String.eqb s "machdep.cpu.brand_string" then ("Apple M1", false)
       else if String.eqb s "hw.model" then ("MacBookAir10,1", false)
       else if String.eqb s "kern.version" then ("Darwin", false)
       else if String.eqb s "kern.osversion" then ("21A559", false)
       else ("", true);
     unix_SysctlUint32 := fun s =>
       if String.eqb s "hw.cpufamily" then (famFireIce, false)
       else if String.eqb s "hw.cpusubfamily" then (2, false)
       else if String.eqb s "hw.nperflevels" then (2, false)
       else if String.eqb s "hw.perflevel0.physicalcpu" then (4, false)
       else if String.eqb s "hw.perflevel1.physicalcpu" then (4, false)
       else if String.eqb s "machdep.virtual_address_size" then (47, false)
       else (0, true);
     unix_SysctlUint64 := fun s =>
       if String.eqb s "hw.cachelinesize" then (128, false) else (0, true);
     unix_SysctlRaw := fun _ => ("", true) |}.


(** [binary.LittleEndian.PutUint64]: the eight bytes of [x], lowest first. *)
Definition byte_at (x : Z) (k : Z) : ascii :=
  ascii_of_N (Z.to_N (Z.shiftr x (8 * k) mod 256)).

Definition PutUint64 (x : Z) : string :=
  String (byte_at x 0) (String (byte_at x 1) (String (byte_at x 2) (String (byte_at x 3)
  (String (byte_at x 4) (String (byte_at x 5) (String (byte_at x 6)
  (String (byte_at x 7) EmptyString))))))).

Fixpoint encodeUint64s (xs : list Z) : string :=
  match xs with
  | [] => EmptyString
  | x :: xs' => PutUint64 x ++ encodeUint64s xs'
  end.

(** A host that answers [hw.cacheconfig] with [raw]. *)
Definition rawHost (raw : string) : Unix :=
  {| unix_Sysctl := fun _ => ("", true);
     unix_SysctlUint32 := fun _ => (0, true);
     unix_SysctlUint64 := fun _ => (0, true);
     unix_SysctlRaw := fun _ => (raw, false) |}.

(** The keys that have a case of their own in the switch of [scanProc]. *)
Definition knownKeys : list string :=
  ["processor"; "BogoMIPS"; "bogomips"; "Features"; "CPU implementer";
   "CPU architecture"; "CPU variant"; "CPU part"; "CPU revision"; "stepping";
   "model name"; "vendor_id"; "cpu family"; "model"; "microcode"; "cpu MHz";
   "cache size"; "physical id"; "siblings"; "core id"; "cpu cores"; "apicid";
   "initial apicid"; "fpu"; "fpu_exception"; "cpuid level"; "wp"; "flags"; "bugs";
   "clflush size"; "cache_alignment"; "address sizes"; "power management"; "TLB size"].

Definition isKnownKey (k : string) : bool := existsb (String.eqb k) knownKeys.

(** The pairs of the lines whose key is neither empty nor known, in the
    order of the lines. *)
Definition unknownPairs (lines : list string) : list Pair :=
  flat_map (fun l => let '(k, v) := split l in
                     if key_is k "" || isKnownKey k then [] else [mkPair k v]) lines.

(** A line with two unrecognised keys around a record. *)
Definition buf_misc : string :=
  line "Serial	: 10" ++ line "processor	: 0" ++ line "Processor	: 1"
  ++ line "" ++ line "Hardware	: BCM2711".

(** A line the scanner can hold: no line feed in it and fewer bytes than
    the scanner's buffer may grow to. *)
Definition shortLine (l : string) : bool :=
  negb (hasByte (ascii_of_nat 10) l) && (Strings.len l <? Bufio.MaxScanTokenSize).

(** The lines, each followed by a line feed. *)
Fixpoint unlines (ls : list string) : string :=
  match ls with
  | [] => EmptyString
  | l :: ls' => line l ++ unlines ls'
  end.

(** 65536 bytes without a line feed. *)
Definition longLine : string := N.iter 65536 (String "x") EmptyString.

(** Nothing but ASCII white space. *)
Fixpoint allSpace (s : string) : bool :=
  match s with
  | EmptyString => true
  | String c r => Strings.asciiSpace c && allSpace r
  end.

(** * Facts about the string primitives *)

Section StringFacts.

Import Strings.

Lemma append_nil_r (s : string) : s ++ "" = s.
Proof. induction s as [|a s IH]; simpl; [reflexivity | now rewrite IH]. Qed.

Lemma append_assoc (a b c : string) : (a ++ b) ++ c = a ++ (b ++ c).
Proof. induction a as [|x a IH]; simpl; [reflexivity | now rewrite IH]. Qed.

Lemma length_append (a b : string) :
  String.length (a ++ b) = (String.length a + String.length b)%nat.
Proof. induction a as [|x a IH]; simpl; [reflexivity | now rewrite IH]. Qed.

Lemma len_append (a b : string) : len (a ++ b) = len a + len b.
Proof. unfold len. rewrite length_append. lia. Qed.

Lemma len_nonneg (s : string) : 0 <= len s.
Proof. unfold len. lia. Qed.

Lemma take_append (a b : string) : take (String.length a) (a ++ b) = a.
Proof. induction a as [|x a IH]; simpl; [now destruct b | now rewrite IH]. Qed.

Lemma drop_append (a b : string) : drop (String.length a) (a ++ b) = b.
Proof. induction a as [|x a IH]; simpl; [now destruct b | exact IH]. Qed.

Lemma take_drop (n : nat) (s : string) : take n s ++ drop n s = s.
Proof.
  revert s; induction n as [|n IH]; intros [|a s]; simpl; try reflexivity.
  now rewrite IH.
Qed.

Lemma slice_to_append (a b : string) : slice_to (a ++ b) (len a) = a.
Proof. unfold slice_to, len. rewrite Nat2Z.id. apply take_append. Qed.

Lemma slice_from_append (a b : string) : slice_from (a ++ b) (len a) = b.
Proof. unfold slice_from, len. rewrite Nat2Z.id. apply drop_append. Qed.

Lemma slice_from_append_1 (a : string) (c : ascii) (b : string) :
  slice_from (a ++ String c b) (len a + 1) = b.
Proof.
  replace (a ++ String c b) with ((a ++ String c "") ++ b)
    by (rewrite append_assoc; reflexivity).
  replace (len a + 1) with (len (a ++ String c "")).
  - apply slice_from_append.
  - rewrite len_append. reflexivity.
Qed.

Lemma slice_to_from (s : string) (i : Z) : slice_to s i ++ slice_from s i = s.
Proof. apply take_drop. Qed.

(** [IndexByte] finds the first occurrence and nothing else. *)
Lemma IndexByte_range (s : string) (c : ascii) : -1 <= IndexByte s c < len s.
Proof.
  induction s as [|a s IH]; simpl.
  - unfold len; simpl; lia.
  - unfold len in *; simpl String.length.
    destruct (Ascii.eqb a c); [lia|].
    destruct (IndexByte s c <? 0) eqn:E; [lia|]. apply Z.ltb_ge in E. lia.
Qed.

Lemma IndexByte_absent (s : string) (c : ascii) :
  hasByte c s = false <-> IndexByte s c = -1.
Proof.
  induction s as [|a s IH]; simpl; [tauto|].
  destruct (Ascii.eqb a c); simpl.
  - split; discriminate.
  - pose proof (IndexByte_range s c) as Hr.
    destruct (IndexByte s c <? 0) eqn:E.
    + apply Z.ltb_lt in E. rewrite IH. split; intros; lia.
    + apply Z.ltb_ge in E. rewrite IH. split; intros; lia.
Qed.

Lemma IndexByte_first (a : string) (c : ascii) (b : string) :
  hasByte c a = false -> IndexByte (a ++ String c b) c = len a.
Proof.
  induction a as [|x a IH]; simpl; intros H.
  - now rewrite Ascii.eqb_refl.
  - apply orb_false_iff in H as [Hx Ha]. rewrite Hx, (IH Ha).
    pose proof (len_nonneg a) as Hl.
    destruct (len a <? 0) eqn:E; [apply Z.ltb_lt in E; lia|].
    unfold len; simpl String.length. lia.
Qed.

Lemma IndexByte_split (s : string) (c : ascii) :
  0 <= IndexByte s c ->
  s = slice_to s (IndexByte s c) ++ String c (slice_from s (IndexByte s c + 1))
  /\ hasByte c (slice_to s (IndexByte s c)) = false.
Proof.
  induction s as [|a s IH]; simpl; [lia|].
  destruct (Ascii.eqb_spec a c) as [->|Hne].
  - intros _. split; reflexivity.
  - pose proof (IndexByte_range s c) as Hr.
    destruct (IndexByte s c <? 0) eqn:E; [lia|]. apply Z.ltb_ge in E.
    intros _. destruct (IH E) as [Hs Hn].
    unfold slice_to, slice_from in *.
    replace (Z.to_nat (IndexByte s c + 1)) with (S (Z.to_nat (IndexByte s c))) by lia.
    replace (Z.to_nat (IndexByte s c + 1 + 1)) with (S (Z.to_nat (IndexByte s c + 1))) by lia.
    simpl. split.
    + f_equal. exact Hs.
    + rewrite Hn. apply Ascii.eqb_neq in Hne. now rewrite Hne.
Qed.

Lemma hasByte_append (c : ascii) (a b : string) :
  hasByte c (a ++ b) = hasByte c a || hasByte c b.
Proof.
  induction a as [|x a IH]; simpl; [reflexivity|].
  rewrite IH. now rewrite orb_assoc.
Qed.

Lemma HasPrefix_nil (s : string) : HasPrefix s "" = true.
Proof. destruct s; reflexivity. Qed.

Lemma Index_eq (s sep : string) :
  Index s sep =
  if HasPrefix s sep then 0
  else match s with
       | EmptyString => -1
       | String _ s' => let i := Index s' sep in if i <? 0 then -1 else i + 1
       end.
Proof. destruct s; reflexivity. Qed.

(** [Index] finds the first occurrence of the two-byte separator. *)
Lemma Index_first (a rest : string) (c1 c2 : ascii) :
  hasByte c1 a = false ->
  Index (a ++ String c1 (String c2 rest)) (String c1 (String c2 "")) = len a.
Proof.
  induction a as [|x a IH]; intros H; rewrite Index_eq.
  - cbn [append HasPrefix]. now rewrite !Ascii.eqb_refl, HasPrefix_nil.
  - simpl in H. apply orb_false_iff in H as [Hx Ha].
    cbn [append HasPrefix].
    rewrite Ascii.eqb_sym in Hx. rewrite Hx. cbn [andb].
    cbv zeta. rewrite (IH Ha). pose proof (len_nonneg a).
    destruct (len a <? 0) eqn:E; [apply Z.ltb_lt in E; lia|].
    unfold len; simpl String.length. lia.
Qed.

Lemma HasPrefix_split (s p : string) :
  HasPrefix s p = true -> s = p ++ drop (String.length p) s.
Proof.
  revert s; induction p as [|a p IH]; intros s H; simpl in *.
  - now destruct s.
  - destruct s as [|b s]; [discriminate|].
    apply andb_true_iff in H as [Hab Hp]. apply Ascii.eqb_eq in Hab. subst b.
    simpl. f_equal. now apply IH.
Qed.

Lemma Index_range (s sep : string) : -1 <= Index s sep <= len s.
Proof.
  induction s as [|a s IH]; rewrite Index_eq.
  - destruct (HasPrefix "" sep); unfold len; simpl; lia.
  - destruct (HasPrefix (String a s) sep).
    + pose proof (len_nonneg (String a s)). lia.
    + cbv zeta. unfold len in *. simpl String.length.
      destruct (Index s sep <? 0) eqn:E; [lia|]. apply Z.ltb_ge in E. lia.
Qed.

Lemma Index_split (s sep : string) :
  0 <= Index s sep ->
  s = slice_to s (Index s sep) ++ sep ++ slice_from s (Index s sep + len sep).
Proof.
  induction s as [|a s IH]; rewrite Index_eq.
  - destruct (HasPrefix "" sep) eqn:E; [|lia].
    intros _. destruct sep; [reflexivity | discriminate].
  - destruct (HasPrefix (String a s) sep) eqn:E.
    + intros _. unfold slice_to, slice_from, len. simpl Z.to_nat.
      rewrite Nat2Z.id. cbn [take append]. now apply HasPrefix_split.
    + cbv zeta. pose proof (Index_range s sep) as Hr.
      destruct (Index s sep <? 0) eqn:E2; [lia|]. apply Z.ltb_ge in E2.
      intros _. specialize (IH E2).
      unfold slice_to, slice_from in *.
      pose proof (len_nonneg sep).
      replace (Z.to_nat (Index s sep + 1)) with (S (Z.to_nat (Index s sep))) by lia.
      replace (Z.to_nat (Index s sep + 1 + len sep))
        with (S (Z.to_nat (Index s sep + len sep))) by lia.
      cbn [take drop append]. f_equal. exact IH.
Qed.

(** Suffix test and removal. *)
Lemma HasSuffix_append (a suf : string) : HasSuffix (a ++ suf) suf = true.
Proof.
  unfold HasSuffix. rewrite len_append.
  pose proof (len_nonneg a).
  replace (len a + len suf - len suf) with (len a) by lia.
  rewrite slice_from_append, String.eqb_refl.
  destruct (len suf <=? len a + len suf) eqn:E; [reflexivity|].
  apply Z.leb_gt in E. lia.
Qed.

Lemma TrimSuffix_append (a suf : string) : TrimSuffix (a ++ suf) suf = a.
Proof.
  unfold TrimSuffix. rewrite HasSuffix_append, len_append.
  replace (len a + len suf - len suf) with (len a) by lia.
  apply slice_to_append.
Qed.

Lemma HasSuffix_split (s suf : string) :
  HasSuffix s suf = true -> s = TrimSuffix s suf ++ suf.
Proof.
  intros H. unfold TrimSuffix. rewrite H.
  unfold HasSuffix in H. apply andb_true_iff in H as [_ H].
  apply String.eqb_eq in H.
  transitivity (slice_to s (len s - len suf) ++ slice_from s (len s - len suf)).
  - symmetry. apply slice_to_from.
  - now rewrite H.
Qed.

End StringFacts.

(** * Facts about the integer parser *)

Section AtoiFacts.

Import Strconv.

Lemma wrap_int_small (x : Z) : 0 <= x < 2 ^ 63 -> wrap_int x = x.
Proof.
  intros H. unfold wrap_int. rewrite Z.mod_small by lia.
  destruct (x <? 2 ^ 63) eqn:E; [reflexivity|]. apply Z.ltb_ge in E. lia.
Qed.

Lemma wrap_int_range (x : Z) : - 2 ^ 63 <= wrap_int x < 2 ^ 63.
Proof.
  unfold wrap_int. pose proof (Z.mod_pos_bound x (2 ^ 64) ltac:(lia)) as H.
  cbv zeta. destruct (x mod 2 ^ 64 <? 2 ^ 63) eqn:E.
  - apply Z.ltb_lt in E. lia.
  - apply Z.ltb_ge in E. lia.
Qed.

(** A digit of the vocabulary is the digit the parser reads, and is never
    the underscore. *)
Lemma digitValue_digitOf (a : ascii) (d : Z) :
  digitValue a = Some d ->
  (byte_of a =? 95) = false /\ digitOf (byte_of a) = Some d /\ 0 <= d < 16.
Proof.
  destruct a as [b0 b1 b2 b3 b4 b5 b6 b7].
  destruct b0, b1, b2, b3, b4, b5, b6, b7; vm_compute; intros H;
    try discriminate; inversion H; subst; repeat split; discriminate.
Qed.

Lemma textValue_ge (base : Z) (s : string) :
  1 <= base -> forall acc v, 0 <= acc -> textValue base acc s = Some v -> acc <= v.
Proof.
  intros Hb. induction s as [|a s IH]; simpl; intros acc v Hacc H.
  - inversion H; lia.
  - destruct (digitValue a) as [d|] eqn:Ed; [|discriminate].
    destruct (digitValue_digitOf a d Ed) as (_ & _ & Hd).
    destruct (d <? base); [|discriminate].
    apply IH in H; nia.
Qed.

(** On text that denotes a number below [2^64] the digit loop computes that
    number and meets neither error. *)
Lemma digits_textValue (base : Z) (s : string) :
  base = 10 \/ base = 16 ->
  forall n us v,
    0 <= n -> textValue base n s = Some v -> v <= maxUint64 ->
    digits base true (maxUint64 / base + 1) maxUint64 s n us = inl (v, us).
Proof.
  intros Hb. induction s as [|a s IH]; intros n us v Hn H Hv.
  - simpl in *. now inversion H.
  - cbn [textValue] in H. cbn [digits].
    destruct (digitValue a) as [d|] eqn:Ed; [|discriminate].
    destruct (digitValue_digitOf a d Ed) as (Hu & Hd & Hr).
    cbv zeta. rewrite Hu, Hd. cbn [andb].
    destruct (d <? base) eqn:Edb; [|discriminate]. apply Z.ltb_lt in Edb.
    assert (Hle : n * base + d <= v).
    { apply (textValue_ge base s) in H; destruct Hb; subst base; lia. }
    assert (Hmax : maxUint64 = 18446744073709551615) by reflexivity.
    assert (Hc : (n >=? maxUint64 / base + 1) = false).
    { rewrite Z.geb_leb. apply Z.leb_gt.
      destruct Hb; subst base.
      - change (maxUint64 / 10 + 1) with 1844674407370955162. lia.
      - change (maxUint64 / 16 + 1) with 1152921504606846976. lia. }
    assert (Hdb : (d >=? base) = false) by (rewrite Z.geb_leb; apply Z.leb_gt; lia).
    rewrite Hdb, Hc. unfold wrap_u64.
    assert (Hnb : 0 <= n * base) by (destruct Hb; subst base; lia).
    change (2 ^ 64) with 18446744073709551616.
    rewrite (Z.mod_small (n * base)) by lia.
    rewrite (Z.mod_small (n * base + d)) by lia.
    assert (E1 : (n * base + d <? n * base) = false) by (apply Z.ltb_ge; lia).
    assert (E2 : (n * base + d >? maxUint64) = false)
      by (rewrite Z.gtb_ltb; apply Z.ltb_ge; lia).
    rewrite E1, E2. cbn [orb].
    apply IH; [lia | exact H | exact Hv].
Qed.

Lemma maxVal_64 : wrap_u64 (wrap_u64 (Z.shiftl 1 UintSize) - 1) = maxUint64.
Proof. reflexivity. Qed.

(** The parser on unsigned numeric text below [2^64]. *)
Lemma ParseUint0_numeral (s : string) (n : Z) :
  numeralValue s = Some n -> n <= maxUint64 ->
  ParseUint0 s UintSize = (n, None).
Proof.
  destruct s as [|a rest]; [discriminate|].
  unfold numeralValue, ParseUint0. rewrite maxVal_64.
  destruct (byte_of a =? 48) eqn:E0.
  - destruct rest as [|x h].
    + intros H _. inversion H. reflexivity.
    + destruct ((byte_of x =? 120) || (byte_of x =? 88)) eqn:Ex; [|discriminate].
      destruct h as [|c r]; [discriminate|]. cbn [String.eqb negb andb].
      intros H Hn.
      assert (Hl : (lower (byte_of x) =? 98) = false
                   /\ (lower (byte_of x) =? 111) = false
                   /\ (lower (byte_of x) =? 120) = true).
      { apply orb_true_iff in Ex as [Ex|Ex]; apply Z.eqb_eq in Ex; rewrite Ex;
          repeat split; reflexivity. }
      destruct Hl as (-> & -> & ->).
      rewrite (digits_textValue 16 (String c r) (or_intror eq_refl) 0 false n
                 ltac:(lia) H Hn).
      reflexivity.
  - intros H Hn.
    rewrite (digits_textValue 10 (String a rest) (or_introl eq_refl) 0 false n
               ltac:(lia) H Hn).
    reflexivity.
Qed.

Lemma numeralValue_nonneg (s : string) (n : Z) : numeralValue s = Some n -> 0 <= n.
Proof.
  destruct s as [|a rest]; [discriminate|]. unfold numeralValue.
  destruct (byte_of a =? 48).
  - destruct rest as [|x h]; [intros H; inversion H; lia|].
    destruct (_ && _); [|discriminate].
    intros H. apply (textValue_ge 16 h ltac:(lia)) in H; lia.
  - intros H. apply (textValue_ge 10 _ ltac:(lia)) in H; lia.
Qed.

Lemma atoi_numeral (s : string) (n : Z) :
  numeralValue s = Some n -> n < 2 ^ 63 -> atoi s = n.
Proof.
  intros H Hn. unfold atoi.
  rewrite (ParseUint0_numeral s n H) by (unfold maxUint64; lia).
  apply wrap_int_small. apply numeralValue_nonneg in H. lia.
Qed.

(** Numeric text holds digits and the letter of the [0x] prefix only. *)
Lemma textValue_hasByte (c : ascii) (base : Z) (s : string) :
  digitValue c = None ->
  forall acc v, textValue base acc s = Some v -> hasByte c s = false.
Proof.
  intros Hc. induction s as [|a s IH]; simpl; intros acc v H; [reflexivity|].
  destruct (digitValue a) as [d|] eqn:Ed; [|discriminate].
  destruct (d <? base); [|discriminate].
  rewrite (IH _ _ H), orb_false_r.
  apply Ascii.eqb_neq. intros ->. congruence.
Qed.

Lemma numeralValue_hasByte (c : ascii) (s : string) (n : Z) :
  digitValue c = None -> byte_of c <> 120 -> byte_of c <> 88 ->
  numeralValue s = Some n -> hasByte c s = false.
Proof.
  intros Hc Hx HX. destruct s as [|a rest]; [reflexivity|].
  unfold numeralValue. destruct (byte_of a =? 48) eqn:E0.
  - assert (Ha : Ascii.eqb a c = false).
    { apply Ascii.eqb_neq. intros ->. apply Z.eqb_eq in E0.
      revert Hc. unfold digitValue. rewrite E0. discriminate. }
    destruct rest as [|x h]; intros H; simpl; rewrite Ha; [reflexivity|].
    destruct ((byte_of x =? 120) || (byte_of x =? 88)) eqn:Ex; [|discriminate].
    destruct (negb (String.eqb h "")); [|discriminate]. cbn [andb] in H.
    rewrite (textValue_hasByte c 16 h Hc _ _ H), orb_false_r. cbn [orb].
    apply Ascii.eqb_neq. intros ->.
    apply orb_true_iff in Ex as [Ex|Ex]; apply Z.eqb_eq in Ex; congruence.
  - intros H. exact (textValue_hasByte c 10 _ Hc _ _ H).
Qed.

(** An error of the digit loop carries 0 when it is a syntax error and the
    largest value when it is a range error. *)
Lemma digits_error (base : Z) (base0 : bool) (cutoff maxVal : Z) (s : string) :
  forall n us v e,
    digits base base0 cutoff maxVal s n us = inr (v, e) ->
    match e with ErrSyntax => v = 0 | ErrRange => v = maxVal end.
Proof.
  induction s as [|a s IH]; intros n us v e; cbn [digits]; [discriminate|].
  cbv zeta. destruct ((byte_of a =? 95) && base0); [apply IH|].
  destruct (digitOf (byte_of a)) as [d|]; [|intros H; now inversion H].
  destruct (d >=? base); [intros H; now inversion H|].
  destruct (n >=? cutoff); [intros H; now inversion H|].
  destruct (_ || _); [intros H; now inversion H|]. apply IH.
Qed.

Lemma ParseUint0_error (s : string) (v : Z) (e : NumError) :
  ParseUint0 s UintSize = (v, Some e) ->
  match e with ErrSyntax => v = 0 | ErrRange => v = maxUint64 end.
Proof.
  destruct s as [|a rest]; [intros H; now inversion H|].
  unfold ParseUint0. rewrite maxVal_64.
  destruct (if byte_of a =? 48 then _ else _) as [base body].
  destruct (digits _ _ _ _ _ _ _) as [[n us]|[v' e']] eqn:Ed.
  - destruct (us && _); intros H; now inversion H.
  - intros H. inversion H; subst. exact (digits_error _ _ _ _ _ _ _ _ _ Ed).
Qed.

End AtoiFacts.

(** * The primitive and composite decoders *)

Section DecoderFacts.

Import Strings Strconv.

(** C8, as amended.  [atoi] always returns an [int] and never an error.
    Decimal text without a leading zero and [0x]-prefixed hexadecimal text
    parse to their numeric value when it is below [2^63]; input that
    [ParseUint] rejects for its syntax gives 0, input it rejects for its
    range gives -1. *)
Theorem atoi_values :
  (forall s, - 2 ^ 63 <= atoi s < 2 ^ 63)
  /\ (forall s n, numeralValue s = Some n -> n < 2 ^ 63 -> atoi s = n)
  /\ (forall s v, ParseUint0 s UintSize = (v, Some ErrSyntax) -> atoi s = 0)
  /\ (forall s v, ParseUint0 s UintSize = (v, Some ErrRange) -> atoi s = -1).
Proof.
  repeat split.
  - unfold atoi. destruct (ParseUint0 s UintSize). apply wrap_int_range.
  - unfold atoi. destruct (ParseUint0 s UintSize). apply wrap_int_range.
  - apply atoi_numeral.
  - intros s v H. unfold atoi. rewrite H.
    apply ParseUint0_error in H. now subst v.
  - intros s v H. unfold atoi. rewrite H.
    apply ParseUint0_error in H. now subst v.
Qed.

Lemma atoi_values_witness :
  atoi "0x41" = 65 /\ atoi "12a" = 0 /\ atoi "18446744073709551616" = -1.
Proof.
  destruct atoi_values as (_ & Hn & Hs & Hr).
  split; [|split].
  - apply (Hn "0x41" 65); [reflexivity | lia].
  - apply (Hs "12a" 0). reflexivity.
  - apply (Hr "18446744073709551616" maxUint64). reflexivity.
Defined.

(** C8 as stated fails: decimal text with a leading zero is read as octal,
    and decimal text of [2^64] yields neither its value nor zero. *)
Lemma atoi_decimal_counterexample :
  (decimalValue "010" = Some 10 /\ atoi "010" = 8)
  /\ (decimalValue "18446744073709551616" = Some 18446744073709551616
      /\ atoi "18446744073709551616" = -1).
Proof. repeat split; reflexivity. Qed.

Lemma HasSuffix_last (t : string) (c d : ascii) :
  HasSuffix (t ++ String c "") (String d "") = Ascii.eqb c d.
Proof.
  unfold HasSuffix. rewrite len_append. pose proof (len_nonneg t).
  replace (len t + len (String c "") - len (String d "")) with (len t)
    by (unfold len; simpl; lia).
  rewrite slice_from_append.
  replace (len (String d "") <=? len t + len (String c "")) with true
    by (symmetry; apply Z.leb_le; unfold len; simpl; lia).
  cbn [andb String.eqb]. now destruct (Ascii.eqb c d).
Qed.

(** [parseSize] on a string whose first space follows [a]. *)
Lemma parseSize_shape (a u : string) :
  hasByte " " a = false ->
  parseSize (a ++ " " ++ u) =
  if String.eqb u "KB" then wrap_int (atoi a * 1024)
  else if String.eqb u "MB" then wrap_int (atoi a * (1024 * 1024))
  else 0.
Proof.
  intros Ha. unfold parseSize. cbn [append].
  rewrite (IndexByte_first a " " u Ha).
  pose proof (len_nonneg a) as Hl.
  replace (len a <? 0) with false by (symmetry; apply Z.ltb_ge; lia).
  replace (len a =? len (a ++ String " " u)) with false.
  2:{ symmetry. apply Z.eqb_neq. rewrite len_append.
      pose proof (len_nonneg u). unfold len at 3. simpl String.length. lia. }
  cbn [orb]. rewrite slice_to_append, slice_from_append_1. reflexivity.
Qed.

(** C6, as amended.  For numeric text [n] (decimal without a leading zero,
    or [0x] hexadecimal) ["<n> KB"] decodes to [n * 1024] and ["<n> MB"] to
    [n * 1024 * 1024] whenever the product is below [2^63]; a unit token
    other than [KB] and [MB] (the empty one included) gives 0, and so does
    a string without a space. *)
Theorem parseSize_values :
  (forall s n, numeralValue s = Some n -> n * 1024 < 2 ^ 63 ->
               parseSize (s ++ " KB") = n * 1024)
  /\ (forall s n, numeralValue s = Some n -> n * 1024 * 1024 < 2 ^ 63 ->
                  parseSize (s ++ " MB") = n * 1024 * 1024)
  /\ (forall a u, hasByte " " a = false -> u <> "KB" -> u <> "MB" ->
                  parseSize (a ++ " " ++ u) = 0)
  /\ (forall s, hasByte " " s = false -> parseSize s = 0).
Proof.
  repeat split.
  - intros s n H Hn. pose proof (numeralValue_nonneg s n H) as H0.
    change (s ++ " KB") with (s ++ " " ++ "KB").
    rewrite parseSize_shape
      by (apply (numeralValue_hasByte " " s n); [reflexivity | discriminate.. | exact H]).
    cbn [String.eqb Ascii.eqb Bool.eqb]. rewrite (atoi_numeral s n H) by lia.
    apply wrap_int_small. lia.
  - intros s n H Hn. pose proof (numeralValue_nonneg s n H) as H0.
    change (s ++ " MB") with (s ++ " " ++ "MB").
    rewrite parseSize_shape
      by (apply (numeralValue_hasByte " " s n); [reflexivity | discriminate.. | exact H]).
    cbn [String.eqb Ascii.eqb Bool.eqb]. rewrite (atoi_numeral s n H) by lia.
    rewrite wrap_int_small by lia. lia.
  - intros a u Ha Hk Hm. rewrite (parseSize_shape a u Ha).
    apply String.eqb_neq in Hk, Hm. now rewrite Hk, Hm.
  - intros s Hs. unfold parseSize.
    apply IndexByte_absent in Hs. rewrite Hs. reflexivity.
Qed.

Lemma parseSize_values_witness :
  parseSize "16384 KB" = 16384 * 1024 /\ parseSize "2 MB" = 2 * 1024 * 1024
  /\ parseSize "2 GB" = 0 /\ parseSize "2KB" = 0.
Proof.
  destruct parseSize_values as (Hk & Hm & Hu & Hn).
  split; [|split; [|split]].
  - apply (Hk "16384" 16384); [reflexivity | lia].
  - apply (Hm "2" 2); [reflexivity | lia].
  - apply (Hu "2" "GB"); [reflexivity | discriminate | discriminate].
  - apply (Hn "2KB"). reflexivity.
Defined.

(** C6 as stated fails for a count with a leading zero and for a count whose
    product leaves the range of [int]. *)
Lemma parseSize_counterexample :
  (decimalValue "010" = Some 10 /\ parseSize "010 KB" = 8 * 1024)
  /\ (decimalValue "9007199254740992" = Some 9007199254740992
      /\ parseSize "9007199254740992 KB" = - 2 ^ 63).
Proof. repeat split; reflexivity. Qed.

Lemma addr_text_assoc (l r : string) :
  l ++ " bits physical, " ++ r ++ " bits virtual"
  = (l ++ " bits physical") ++ ", " ++ (r ++ " bits virtual").
Proof. rewrite append_assoc. reflexivity. Qed.

(** [parseAddrSizes] on a string whose first [", "] follows [lhs]. *)
Lemma parseAddrSizes_shape (l r : string) :
  hasByte "," l = false ->
  parseAddrSizes (l ++ " bits physical, " ++ r ++ " bits virtual") = (atoi l, atoi r).
Proof.
  intros Hl. rewrite addr_text_assoc.
  set (lhs := l ++ " bits physical"). set (rhs := r ++ " bits virtual").
  assert (Hc : hasByte "," lhs = false)
    by (unfold lhs; rewrite hasByte_append, Hl; reflexivity).
  unfold parseAddrSizes. cbn [append].
  rewrite (Index_first lhs rhs "," " " Hc).
  pose proof (len_nonneg lhs) as H1. pose proof (len_nonneg r) as H2.
  assert (Hlen : len (lhs ++ String "," (String " " rhs)) = len lhs + 2 + len rhs).
  { change (String "," (String " " rhs)) with (", " ++ rhs).
    rewrite !len_append. unfold len at 2. simpl String.length. lia. }
  assert (Hr : len rhs = len r + 13)
    by (unfold rhs; rewrite len_append; unfold len at 2; simpl; lia).
  replace (len lhs <? 0) with false by (symmetry; apply Z.ltb_ge; lia).
  replace (len lhs + len ", " =? len (lhs ++ String "," (String " " rhs))) with false
    by (symmetry; apply Z.eqb_neq; rewrite Hlen; unfold len at 2; simpl; lia).
  cbn [orb]. rewrite slice_to_append.
  replace (slice_from (lhs ++ String "," (String " " rhs)) (len lhs + len ", ")) with rhs.
  2:{ change (lhs ++ String "," (String " " rhs)) with (lhs ++ ", " ++ rhs).
      rewrite <- append_assoc, <- len_append. symmetry. apply slice_from_append. }
  unfold lhs, rhs. rewrite !HasSuffix_append, !TrimSuffix_append. reflexivity.
Qed.

(** C5, as amended.  ["<p> bits physical, <v> bits virtual"] decodes to
    [(p, v)] for numeric text [p] and [v] (decimal without a leading zero, or
    [0x] hexadecimal) below [2^63]; a string that is not some text, the
    literal [" bits physical, "], some text and the literal [" bits virtual"]
    decodes to [(0, 0)]. *)
Theorem parseAddrSizes_values :
  (forall p v np nv,
      numeralValue p = Some np -> numeralValue v = Some nv ->
      np < 2 ^ 63 -> nv < 2 ^ 63 ->
      parseAddrSizes (p ++ " bits physical, " ++ v ++ " bits virtual") = (np, nv))
  /\ (forall s,
         (forall l r, s <> l ++ " bits physical, " ++ r ++ " bits virtual") ->
         parseAddrSizes s = (0, 0)).
Proof.
  split.
  - intros p v np nv Hp Hv Hnp Hnv.
    rewrite parseAddrSizes_shape
      by (apply (numeralValue_hasByte "," p np); [reflexivity | discriminate.. | exact Hp]).
    now rewrite (atoi_numeral p np Hp Hnp), (atoi_numeral v nv Hv Hnv).
  - intros s Hs. unfold parseAddrSizes.
    destruct (Index s ", " <? 0) eqn:Ei; [reflexivity|]. apply Z.ltb_ge in Ei.
    destruct (Index s ", " + len ", " =? len s); [reflexivity|]. cbn [orb].
    destruct (HasSuffix (slice_to s (Index s ", ")) " bits physical") eqn:El;
      [|reflexivity].
    destruct (HasSuffix (slice_from s (Index s ", " + len ", ")) " bits virtual") eqn:Er;
      [|reflexivity].
    exfalso. cbn [negb] in *.
    apply HasSuffix_split in El, Er. pose proof (Index_split s ", " Ei) as Hsp.
    rewrite El, Er in Hsp. rewrite <- addr_text_assoc in Hsp.
    exact (Hs _ _ Hsp).
Qed.

Lemma parseAddrSizes_values_witness :
  parseAddrSizes "40 bits physical, 48 bits virtual" = (40, 48)
  /\ parseAddrSizes "40 bits, 48 bits" = (0, 0).
Proof.
  destruct parseAddrSizes_values as (Hv & H0). split.
  - apply (Hv "40" "48" 40 48); [reflexivity | reflexivity | lia | lia].
  - apply (H0 "40 bits, 48 bits").
    intros l r H. apply (f_equal String.length) in H.
    rewrite !length_append in H. simpl in H. lia.
Defined.

(** C5 as stated fails for a size with a leading zero and for one outside
    the range of [int]. *)
Lemma parseAddrSizes_counterexample :
  (decimalValue "040" = Some 40
   /\ parseAddrSizes "040 bits physical, 48 bits virtual" = (32, 48))
  /\ (decimalValue "18446744073709551616" = Some 18446744073709551616
      /\ parseAddrSizes "18446744073709551616 bits physical, 48 bits virtual" = (-1, 48)).
Proof. repeat split; reflexivity. Qed.

(** [parseTLB] on a string whose first space follows [n]. *)
Lemma parseTLB_shape (n k : string) (u : ascii) :
  hasByte " " n = false ->
  parseTLB (n ++ " " ++ k ++ String u " pages") =
  if Ascii.eqb u "K" then (atoi n, wrap_int (atoi k * 1024))
  else if Ascii.eqb u "M" then (atoi n, wrap_int (atoi k * (1024 * 1024)))
  else (0, 0).
Proof.
  intros Hn. unfold parseTLB.
  replace (n ++ " " ++ k ++ String u " pages")
    with (((n ++ " " ++ k) ++ String u "") ++ " pages")
    by (rewrite !append_assoc; reflexivity).
  rewrite HasSuffix_append, TrimSuffix_append. cbn [negb].
  rewrite !HasSuffix_last.
  assert (Hs : slice_to ((n ++ " " ++ k) ++ String u "")
                 (len ((n ++ " " ++ k) ++ String u "") - 1) = n ++ " " ++ k).
  { rewrite len_append. unfold len at 2. simpl String.length.
    replace (len (n ++ " " ++ k) + Z.of_nat 1 - 1) with (len (n ++ " " ++ k)) by lia.
    apply slice_to_append. }
  assert (Hb : forall unit : Z,
             (let s := slice_to ((n ++ " " ++ k) ++ String u "")
                         (len ((n ++ " " ++ k) ++ String u "") - 1) in
              let i := IndexByte s " " in
              if (i <? 0) || (i =? len s) then (0, 0)
              else (atoi (slice_to s i), wrap_int (atoi (slice_from s (i + 1)) * unit)))
             = (atoi n, wrap_int (atoi k * unit))).
  { intros unit. rewrite Hs. cbv zeta. cbn [append].
    rewrite (IndexByte_first n " " k Hn).
    pose proof (len_nonneg n). pose proof (len_nonneg k).
    replace (len n <? 0) with false by (symmetry; apply Z.ltb_ge; lia).
    replace (len n =? len (n ++ String " " k)) with false
      by (symmetry; apply Z.eqb_neq; rewrite len_append; unfold len at 3;
          simpl String.length; lia).
    cbn [orb]. now rewrite slice_to_append, slice_from_append_1. }
  destruct (Ascii.eqb u "K"); [apply Hb|].
  destruct (Ascii.eqb u "M"); [apply Hb|]. reflexivity.
Qed.

(** C7, as amended.  For numeric text [n] and [k] (decimal without a
    leading zero, or [0x] hexadecimal) ["<n> <k>K pages"] decodes to
    [(n, k * 1024)] and ["<n> <k>M pages"] to [(n, k * 1024 * 1024)] whenever
    [n] and the product are below [2^63]; a string without the suffix
    [" pages"], or without [K] or [M] before it, or without a space before
    that unit character, decodes to [(0, 0)]. *)
Theorem parseTLB_values :
  (forall n k vn vk,
      numeralValue n = Some vn -> numeralValue k = Some vk ->
      vn < 2 ^ 63 -> vk * 1024 < 2 ^ 63 ->
      parseTLB (n ++ " " ++ k ++ "K pages") = (vn, vk * 1024))
  /\ (forall n k vn vk,
         numeralValue n = Some vn -> numeralValue k = Some vk ->
         vn < 2 ^ 63 -> vk * 1024 * 1024 < 2 ^ 63 ->
         parseTLB (n ++ " " ++ k ++ "M pages") = (vn, vk * 1024 * 1024))
  /\ (forall s, HasSuffix s " pages" = false -> parseTLB s = (0, 0))
  /\ (forall t, HasSuffix t "K" = false -> HasSuffix t "M" = false ->
                parseTLB (t ++ " pages") = (0, 0))
  /\ (forall t u, u = "K"%char \/ u = "M"%char -> hasByte " " t = false ->
                  parseTLB (t ++ String u " pages") = (0, 0)).
Proof.
  split; [|split; [|split; [|split]]].
  - intros n k vn vk Hn Hk Hvn Hvk.
    pose proof (numeralValue_nonneg k vk Hk).
    rewrite (parseTLB_shape n k "K")
      by (apply (numeralValue_hasByte " " n vn); [reflexivity | discriminate.. | exact Hn]).
    cbn [Ascii.eqb Bool.eqb andb].
    rewrite (atoi_numeral n vn Hn Hvn), (atoi_numeral k vk Hk) by lia.
    now rewrite wrap_int_small by lia.
  - intros n k vn vk Hn Hk Hvn Hvk.
    pose proof (numeralValue_nonneg k vk Hk).
    rewrite (parseTLB_shape n k "M")
      by (apply (numeralValue_hasByte " " n vn); [reflexivity | discriminate.. | exact Hn]).
    cbn [Ascii.eqb Bool.eqb andb].
    rewrite (atoi_numeral n vn Hn Hvn), (atoi_numeral k vk Hk) by lia.
    rewrite wrap_int_small by lia. f_equal. lia.
  - intros s H. unfold parseTLB. now rewrite H.
  - intros t Hk Hm. unfold parseTLB.
    rewrite HasSuffix_append, TrimSuffix_append. cbn [negb]. now rewrite Hk, Hm.
  - intros t u Hu Ht. unfold parseTLB.
    replace (t ++ String u " pages") with ((t ++ String u "") ++ " pages")
      by (rewrite append_assoc; reflexivity).
    rewrite HasSuffix_append, TrimSuffix_append. cbn [negb].
    rewrite !HasSuffix_last.
    assert (Hs : slice_to (t ++ String u "") (len (t ++ String u "") - 1) = t).
    { rewrite len_append. unfold len at 2. simpl String.length.
      replace (len t + Z.of_nat 1 - 1) with (len t) by lia. apply slice_to_append. }
    rewrite Hs. apply IndexByte_absent in Ht. rewrite Ht.
    destruct Hu as [-> | ->]; reflexivity.
Qed.

Lemma parseTLB_values_witness :
  parseTLB "1024 4K pages" = (1024, 4 * 1024)
  /\ parseTLB "1024 2M pages" = (1024, 2 * 1024 * 1024)
  /\ parseTLB "1024 4K" = (0, 0)
  /\ parseTLB "1024 4 pages" = (0, 0)
  /\ parseTLB "4K pages" = (0, 0).
Proof.
  destruct parseTLB_values as (Hk & Hm & Hp & Hu & Hs).
  split; [|split; [|split; [|split]]].
  - apply (Hk "1024" "4" 1024 4); [reflexivity | reflexivity | lia | lia].
  - apply (Hm "1024" "2" 1024 2); [reflexivity | reflexivity | lia | lia].
  - apply (Hp "1024 4K"). reflexivity.
  - apply (Hu "1024 4"); reflexivity.
  - apply (Hs "4" "K"%char); [left; reflexivity | reflexivity].
Defined.

(** C7 as stated fails for a count with a leading zero and for a page size
    whose product leaves the range of [int]. *)
Lemma parseTLB_counterexample :
  (decimalValue "010" = Some 10 /\ parseTLB "010 4K pages" = (8, 4096))
  /\ (decimalValue "9007199254740992" = Some 9007199254740992
      /\ parseTLB "1 9007199254740992K pages" = (1, - 2 ^ 63)).
Proof. repeat split; reflexivity. Qed.

End DecoderFacts.

(** * Trimming *)

Section TrimFacts.

Import Strings.

Lemma rev_append (a b : string) : rev (a ++ b) = rev b ++ rev a.
Proof.
  induction a as [|x a IH]; simpl.
  - now rewrite append_nil_r.
  - now rewrite IH, append_assoc.
Qed.

Lemma rev_involutive (s : string) : rev (rev s) = s.
Proof.
  induction s as [|x s IH]; simpl; [reflexivity|].
  rewrite rev_append, IH. reflexivity.
Qed.

(** What is left after trimming on the left is the end of the string and
    does not begin with white space. *)
Lemma trimLeft_spec (n : nat) :
  forall s, (String.length s <= n)%nat ->
            (exists l, s = l ++ trimLeft s) /\ startsWithSpace (trimLeft s) = false.
Proof.
  induction n as [|n IH]; intros s Hn.
  - destruct s; [|simpl in Hn; lia]. split; [now exists ""|reflexivity].
  - destruct s as [|c1 r1]; [split; [now exists ""|reflexivity]|].
    simpl in Hn. cbn [trimLeft].
    destruct (asciiSpace c1) eqn:E1.
    { destruct (IH r1 ltac:(lia)) as [[l Hl] Hs]. split; [|exact Hs].
      exists (String c1 l). simpl. now rewrite <- Hl. }
    destruct r1 as [|c2 r2]; [split; [now exists ""|exact E1]|].
    simpl in Hn. destruct (space2 c1 c2).
    { destruct (IH r2 ltac:(lia)) as [[l Hl] Hs]. split; [|exact Hs].
      exists (String c1 (String c2 l)). simpl. now rewrite <- Hl. }
    destruct r2 as [|c3 r3]; [split; [now exists ""|exact E1]|].
    simpl in Hn. destruct (space3 c1 c2 c3).
    { destruct (IH r3 ltac:(lia)) as [[l Hl] Hs]. split; [|exact Hs].
      exists (String c1 (String c2 (String c3 l))). simpl. now rewrite <- Hl. }
    split; [now exists ""|exact E1].
Qed.

Lemma trimLeftRev_spec (n : nat) :
  forall s, (String.length s <= n)%nat ->
            (exists l, s = l ++ trimLeftRev s) /\ startsWithSpace (trimLeftRev s) = false.
Proof.
  induction n as [|n IH]; intros s Hn.
  - destruct s; [|simpl in Hn; lia]. split; [now exists ""|reflexivity].
  - destruct s as [|c1 r1]; [split; [now exists ""|reflexivity]|].
    simpl in Hn. cbn [trimLeftRev].
    destruct (asciiSpace c1) eqn:E1.
    { destruct (IH r1 ltac:(lia)) as [[l Hl] Hs]. split; [|exact Hs].
      exists (String c1 l). simpl. now rewrite <- Hl. }
    destruct r1 as [|c2 r2]; [split; [now exists ""|exact E1]|].
    simpl in Hn. destruct (space2 c2 c1).
    { destruct (IH r2 ltac:(lia)) as [[l Hl] Hs]. split; [|exact Hs].
      exists (String c1 (String c2 l)). simpl. now rewrite <- Hl. }
    destruct r2 as [|c3 r3]; [split; [now exists ""|exact E1]|].
    simpl in Hn. destruct (space3 c3 c2 c1).
    { destruct (IH r3 ltac:(lia)) as [[l Hl] Hs]. split; [|exact Hs].
      exists (String c1 (String c2 (String c3 l))). simpl. now rewrite <- Hl. }
    split; [now exists ""|exact E1].
Qed.

(** [TrimSpace] returns a piece of its argument that neither begins nor
    ends with an ASCII white space byte. *)
Lemma TrimSpace_spec (s : string) :
  (exists l r, s = l ++ TrimSpace s ++ r)
  /\ startsWithSpace (TrimSpace s) = false
  /\ endsWithSpace (TrimSpace s) = false.
Proof.
  unfold TrimSpace, trimRight, endsWithSpace.
  destruct (trimLeft_spec (String.length s) s (le_n _)) as [[l Hl] Hs].
  set (t := trimLeft s) in *.
  destruct (trimLeftRev_spec (String.length (rev t)) (rev t) (le_n _)) as [[m Hm] Hr].
  set (u := trimLeftRev (rev t)) in *.
  assert (Ht : t = rev u ++ rev m)
    by (rewrite <- (rev_involutive t), Hm, rev_append; reflexivity).
  split; [|split].
  - exists l, (rev m). now rewrite <- Ht.
  - destruct (rev u) as [|c r] eqn:E; [reflexivity|].
    rewrite Ht in Hs. exact Hs.
  - now rewrite rev_involutive.
Qed.

End TrimFacts.

(** * The line split and the scanner loop *)

Section ScannerFacts.

Import Strings.

Context {R : Runtime}.

Lemma TrimSpace_empty : TrimSpace "" = "".
Proof. reflexivity. Qed.

Lemma split_colon (before after : string) :
  hasByte ":" before = false ->
  split (before ++ ":" ++ after) = (TrimSpace before, TrimSpace after).
Proof.
  intros Hb. unfold split. cbn [append].
  rewrite (IndexByte_first before ":" after Hb).
  pose proof (len_nonneg before) as H1. pose proof (len_nonneg after) as H2.
  replace (len before >=? 0) with true
    by (symmetry; rewrite Z.geb_leb; apply Z.leb_le; lia).
  rewrite slice_to_append, slice_from_append_1.
  destruct after as [|a after].
  - replace (len before + 1 <? len (before ++ String ":" "")) with false
      by (symmetry; apply Z.ltb_ge; rewrite len_append; unfold len at 2; simpl; lia).
    reflexivity.
  - replace (len before + 1 <? len (before ++ String ":" (String a after))) with true
      by (symmetry; apply Z.ltb_lt; rewrite len_append; unfold len at 3;
          simpl String.length; lia).
    reflexivity.
Qed.

Lemma split_no_colon (line : string) :
  hasByte ":" line = false -> split line = ("", TrimSpace line).
Proof.
  intros H. unfold split. apply IndexByte_absent in H. rewrite H.
  cbn [Z.geb Z.compare Z.add Z.opp Z.pos_sub].
  destruct line as [|a line]; [reflexivity|].
  replace (0 <? len (String a line)) with true
    by (symmetry; apply Z.ltb_lt; unfold len; simpl String.length; lia).
  reflexivity.
Qed.

(** A line whose key is empty makes the loop append the accumulator and
    go on with the same accumulator. *)
Lemma scanLine_separator (c : CPU R) (o : Info R) (line : string) :
  fst (split line) = "" ->
  scanLine (c, o) line = (c, mkInfo (CPUs o ++ [c]) (Misc o)).
Proof.
  intros H. unfold scanLine. destruct (split line) as [k v].
  simpl in H. subst k. reflexivity.
Qed.

(** C3, as amended.  The key is the text before the first colon, the value
    the text after it, both trimmed.  A line without a colon has an empty
    key, and for value the whole line, trimmed; the loop takes it for a
    record separator.  Trimmed text is a piece of the original that neither
    begins nor ends with an ASCII white space byte. *)
Theorem split_values :
  (forall before after,
      hasByte ":" before = false ->
      split (before ++ ":" ++ after) = (TrimSpace before, TrimSpace after))
  /\ (forall line, hasByte ":" line = false -> split line = ("", TrimSpace line))
  /\ (forall (c : CPU R) (o : Info R) line,
         hasByte ":" line = false ->
         scanLine (c, o) line = (c, mkInfo (CPUs o ++ [c]) (Misc o)))
  /\ (forall s, (exists l r, s = l ++ TrimSpace s ++ r)
                /\ startsWithSpace (TrimSpace s) = false
                /\ endsWithSpace (TrimSpace s) = false).
Proof.
  split; [exact split_colon | split; [exact split_no_colon | split]].
  - intros c o line H. apply scanLine_separator.
    now rewrite (split_no_colon line H).
  - exact TrimSpace_spec.
Qed.

(** Any other line leaves the CPU sequence as it is. *)
Lemma scanLine_keeps_CPUs (c : CPU R) (o : Info R) (line : string) :
  key_is (fst (split line)) "" = false ->
  CPUs (snd (scanLine (c, o) line)) = CPUs o.
Proof.
  intros H. unfold scanLine. destruct (split line) as [k v].
  simpl in H. rewrite H.
  repeat match goal with
         | |- context [if ?b then _ else _] => destruct b; [try reflexivity|]
         end; reflexivity.
Qed.

Lemma scanLoop_app (l1 l2 : list string) (st : CPU R * Info R) :
  scanLoop (l1 ++ l2) st = scanLoop l2 (scanLoop l1 st).
Proof. apply fold_left_app. Qed.

Lemma scanLoop_keeps_CPUs (tail : list string) :
  forallb (fun l => negb (key_is (fst (split l)) "")) tail = true ->
  forall st, CPUs (snd (scanLoop tail st)) = CPUs (snd st).
Proof.
  induction tail as [|l tail IH]; intros H st; [reflexivity|].
  simpl in H. apply andb_true_iff in H as [Hl Ht].
  apply negb_true_iff in Hl. cbn [scanLoop fold_left].
  change (fold_left scanLine tail (scanLine st l)) with (scanLoop tail (scanLine st l)).
  rewrite (IH Ht). destruct st as [c o]. now apply scanLine_keeps_CPUs.
Qed.

End ScannerFacts.

(** * Records and separators *)

Section RecordFacts.

Context {R : Runtime}.


Lemma countSeparators_app (l1 l2 : list string) :
  countSeparators (l1 ++ l2) = (countSeparators l1 + countSeparators l2)%nat.
Proof. unfold countSeparators. now rewrite filter_app, length_app. Qed.

Lemma scanLoop_count (lines : list string) :
  forall st : CPU R * Info R,
    List.length (CPUs (snd (scanLoop lines st)))
    = (List.length (CPUs (snd st)) + countSeparators lines)%nat.
Proof.
  induction lines as [|l lines IH]; intros [c o].
  - cbn. lia.
  - cbn [scanLoop fold_left].
    change (fold_left scanLine lines (scanLine (c, o) l))
      with (scanLoop lines (scanLine (c, o) l)).
    rewrite IH. unfold countSeparators. cbn [filter snd].
    destruct (key_is (fst (split l)) "") eqn:E.
    + apply String.eqb_eq in E. rewrite (scanLine_separator c o l E).
      cbn [snd CPUs List.length]. rewrite length_app. simpl. lia.
    + rewrite (scanLine_keeps_CPUs c o l E). lia.
Qed.

(** C9.  Lines after the last separator add no record: the CPU sequence of
    the report is the one the scanner yields on the lines up to that
    separator, and the loop appends exactly one record per separator. *)
Theorem trailing_record_not_flushed :
  (forall (o : Info R) buf ls tail,
      Bufio.lines buf = (ls ++ tail)%list ->
      forallb (fun l => negb (key_is (fst (split l)) "")) tail = true ->
      CPUs (scanProc o buf) = CPUs (scanRecords o ls))
  /\ (forall (o : Info R) buf,
         List.length (CPUs (snd (scanLoop (Bufio.lines buf) (zeroCPU, o))))
         = (List.length (CPUs o) + countSeparators (Bufio.lines buf))%nat)
  /\ (SortContract R ->
      forall (o : Info R) buf,
        List.length (CPUs (scanProc o buf))
        = (List.length (CPUs o) + countSeparators (Bufio.lines buf))%nat).
Proof.
  split; [|split].
  - intros o buf ls tail Hl Ht. unfold scanProc, scanRecords, sortInfo.
    rewrite Hl, scanLoop_app. cbn [CPUs].
    now rewrite (scanLoop_keeps_CPUs tail Ht).
  - intros o buf. now rewrite scanLoop_count.
  - intros C o buf. unfold scanProc, scanRecords, sortInfo. cbn [CPUs].
    rewrite <- (Permutation_length (sort_perm R C _ lessProc _)).
    now rewrite scanLoop_count.
Qed.

End RecordFacts.

Lemma split_values_witness :
  split "processor	: 5" = ("processor", "5")
  /\ split "no colon here " = ("", "no colon here")
  /\ @scanLine smallRuntime (zeroCPU, zeroInfo) "no colon here "
     = (zeroCPU, mkInfo [zeroCPU] []).
Proof.
  destruct (@split_values smallRuntime) as (Hc & Hn & Hs & _). split; [|split].
  - apply (Hc "processor	" " 5"). reflexivity.
  - apply (Hn "no colon here "). reflexivity.
  - apply (Hs zeroCPU zeroInfo "no colon here "). reflexivity.
Defined.

(** C3 as stated fails: a line without a colon does not yield an empty
    value. *)
Lemma split_no_colon_counterexample :
  split "no colon here" = ("", "no colon here").
Proof. reflexivity. Qed.



(** * Order and sorting *)

Section OrderFacts.

Lemma byte_of_inj (x y : ascii) : byte_of x = byte_of y -> x = y.
Proof.
  unfold byte_of. intros H. apply N2Z.inj in H.
  rewrite <- (ascii_N_embedding x), <- (ascii_N_embedding y). now rewrite H.
Qed.

Lemma ltb_irrefl (a : string) : Strings.ltb a a = false.
Proof.
  induction a as [|x a IH]; simpl; [reflexivity|].
  now rewrite Z.ltb_irrefl.
Qed.

Ltac byte_cases :=
  repeat match goal with
         | |- context [?x <? ?y] => destruct (Z.ltb_spec x y)
         | H : context [?x <? ?y] |- _ => destruct (Z.ltb_spec x y)
         end.

Lemma ltb_trans (a : string) :
  forall b c, Strings.ltb a b = true -> Strings.ltb b c = true -> Strings.ltb a c = true.
Proof.
  induction a as [|x a IH]; intros [|y b] [|z c]; simpl; try discriminate; auto.
  intros H1 H2. byte_cases; try discriminate; try reflexivity; try lia.
  eapply IH; eassumption.
Qed.

Lemma ltb_incomp (a : string) :
  forall b c, Strings.ltb a b = false -> Strings.ltb b c = false -> Strings.ltb a c = false.
Proof.
  induction a as [|x a IH]; intros [|y b] [|z c]; simpl; try discriminate; auto.
  intros H1 H2. byte_cases; try discriminate; try reflexivity; try lia.
  eapply IH; eassumption.
Qed.

Lemma ltb_antisym (a : string) :
  forall b, Strings.ltb a b = false -> Strings.ltb b a = false -> a = b.
Proof.
  induction a as [|x a IH]; intros [|y b]; simpl; try discriminate; auto.
  intros H1 H2. byte_cases; try discriminate; try lia.
  assert (x = y) by (apply byte_of_inj; lia). subst y.
  f_equal. now apply IH.
Qed.

Context {R : Runtime}.

Lemma lessProc_StrictWeak : StrictWeak (@lessProc R).
Proof.
  unfold lessProc. constructor.
  - intros x. apply Z.ltb_irrefl.
  - intros x y z H1 H2. apply Z.ltb_lt in H1, H2. apply Z.ltb_lt. lia.
  - intros x y z H1 H2. apply Z.ltb_ge in H1, H2. apply Z.ltb_ge. lia.
Qed.

Lemma lessKey_StrictWeak : StrictWeak lessKey.
Proof.
  unfold lessKey. constructor.
  - intros x. apply ltb_irrefl.
  - intros x y z. apply ltb_trans.
  - intros x y z. apply ltb_incomp.
Qed.

End OrderFacts.

Section SortFacts.

Context {A : Type} (less : A -> A -> bool).

Lemma insertDown_perm (x : A) (r : list A) : Permutation (x :: r) (insertDown less x r).
Proof.
  induction r as [|y r IH]; simpl; [reflexivity|].
  destruct (less x y); [|reflexivity].
  rewrite perm_swap. now constructor.
Qed.

Lemma insertion_fold_perm (l : list A) :
  forall acc, Permutation (acc ++ l) (fold_left (fun r x => insertDown less x r) l acc).
Proof.
  induction l as [|x l IH]; intros acc; simpl.
  - now rewrite app_nil_r.
  - etransitivity; [|apply IH].
    etransitivity; [symmetry; apply Permutation_middle|].
    exact (Permutation_app_tail l (insertDown_perm x acc)).
Qed.

Lemma insertionSort_perm (l : list A) : Permutation l (insertionSort A less l).
Proof.
  unfold insertionSort. rewrite <- Permutation_rev.
  exact (insertion_fold_perm l []).
Qed.

Hypothesis SW : StrictWeak less.

Lemma less_asym (x y : A) : less x y = true -> less y x = false.
Proof.
  intros H. destruct (less y x) eqn:E; [|reflexivity].
  pose proof (sw_trans less SW x y x H E) as Hxx.
  rewrite (sw_irrefl less SW x) in Hxx. discriminate.
Qed.

(** The prefix kept by the insertion loop, last element first, descends. *)
Lemma insertDown_sorted (x : A) (r : list A) :
  StronglySorted (fun a b => less a b = false) r ->
  StronglySorted (fun a b => less a b = false) (insertDown less x r).
Proof.
  induction r as [|y r IH]; intros Hs; simpl.
  - repeat constructor.
  - apply StronglySorted_inv in Hs as [Hr Hy].
    destruct (less x y) eqn:E.
    + constructor; [now apply IH|].
      apply (Permutation_Forall (insertDown_perm x r)).
      constructor; [now apply less_asym | exact Hy].
    + constructor; [now constructor|].
      constructor; [exact E|].
      rewrite Forall_forall in *. intros b Hb.
      exact (sw_incomp less SW x y b E (Hy b Hb)).
Qed.

Lemma insertion_fold_sorted (l : list A) :
  forall acc,
    StronglySorted (fun a b => less a b = false) acc ->
    StronglySorted (fun a b => less a b = false)
      (fold_left (fun r x => insertDown less x r) l acc).
Proof.
  induction l as [|x l IH]; intros acc H; simpl; [exact H|].
  apply IH. now apply insertDown_sorted.
Qed.

Lemma StronglySorted_snoc (P : A -> A -> Prop) (l : list A) (a : A) :
  StronglySorted P l -> Forall (fun x => P x a) l -> StronglySorted P (l ++ [a]).
Proof.
  induction l as [|y l IH]; intros Hs Hf; simpl.
  - repeat constructor.
  - apply StronglySorted_inv in Hs as [Hl Hy]. inversion Hf; subst.
    constructor; [now apply IH|].
    apply Forall_app. split; [exact Hy | now repeat constructor].
Qed.

Lemma StronglySorted_rev (P : A -> A -> Prop) (l : list A) :
  StronglySorted P l -> StronglySorted (fun x y => P y x) (List.rev l).
Proof.
  induction l as [|y l IH]; intros Hs; simpl; [constructor|].
  apply StronglySorted_inv in Hs as [Hl Hy].
  apply StronglySorted_snoc; [now apply IH|].
  apply Forall_rev. exact Hy.
Qed.

Lemma insertionSort_sorted (l : list A) :
  StronglySorted (fun x y => less y x = false) (insertionSort A less l).
Proof.
  unfold insertionSort.
  apply (StronglySorted_rev (fun a b => less a b = false)).
  apply insertion_fold_sorted. constructor.
Qed.

(** Two sorted arrangements of the same elements coincide when elements
    that are not ordered either way are equal. *)
Lemma sorted_perm_unique (l1 : list A) :
  forall l2,
    (forall x y, In x l1 -> In y l1 -> less x y = false -> less y x = false -> x = y) ->
    Permutation l1 l2 ->
    StronglySorted (fun x y => less y x = false) l1 ->
    StronglySorted (fun x y => less y x = false) l2 ->
    l1 = l2.
Proof.
  induction l1 as [|a l1 IH]; intros l2 Hd Hp H1 H2.
  - now apply Permutation_nil in Hp.
  - destruct l2 as [|b l2];
      [apply Permutation_sym, Permutation_nil in Hp; discriminate|].
    apply StronglySorted_inv in H1 as [H1 Ha].
    apply StronglySorted_inv in H2 as [H2 Hb].
    rewrite Forall_forall in Ha, Hb.
    assert (Eab : a = b).
    { assert (Ia : In a (b :: l2))
        by (apply (Permutation_in a Hp); now left).
      assert (Ib : In b (a :: l1))
        by (apply (Permutation_in b (Permutation_sym Hp)); now left).
      destruct Ia as [->|Ia]; [reflexivity|].
      destruct Ib as [->|Ib]; [reflexivity|].
      apply Hd; [now left | now right | |].
      - exact (Hb a Ia).
      - exact (Ha b Ib). }
    subst b. f_equal. apply IH.
    + intros x y Hx Hy. apply Hd; now right.
    + exact (Permutation_cons_inv Hp).
    + exact H1.
    + exact H2.
Qed.

End SortFacts.

Lemma smallRuntime_contract : SortContract smallRuntime.
Proof.
  constructor.
  - intros A less l. apply insertionSort_perm.
  - intros A less l H. now apply insertionSort_sorted.
Qed.

Lemma NoDup_map_inj {A B : Type} (f : A -> B) (l : list A) :
  NoDup (map f l) -> forall x y, In x l -> In y l -> f x = f y -> x = y.
Proof.
  induction l as [|a l IH]; intros Hn x y Hx Hy E; [contradiction|].
  simpl in Hn. inversion Hn as [|? ? Hna Hnl]; subst.
  destruct Hx as [->|Hx], Hy as [->|Hy]; try reflexivity.
  - exfalso. apply Hna. rewrite E. now apply in_map.
  - exfalso. apply Hna. rewrite <- E. now apply in_map.
  - now apply IH.
Qed.

Lemma trailing_record_not_flushed_witness :
  map Proc (CPUs (@scanProc smallRuntime zeroInfo buf_trailing)) = [0]
  /\ List.length (CPUs (@scanProc smallRuntime zeroInfo buf_trailing)) = 1%nat.
Proof.
  destruct (@trailing_record_not_flushed smallRuntime) as (H & _ & Hn). split.
  - rewrite (H zeroInfo buf_trailing ["processor	: 0"; ""]
               ["processor	: 1"; "model name	: Y"]); reflexivity.
  - rewrite (Hn smallRuntime_contract zeroInfo buf_trailing). reflexivity.
Defined.

(** * The sorted report *)

Section ReportFacts.

Context {R : Runtime}.

Lemma StronglySorted_weaken {A : Type} (P Q : A -> A -> Prop) (l : list A) :
  (forall x y, P x y -> Q x y) -> StronglySorted P l -> StronglySorted Q l.
Proof.
  intros HPQ. induction 1 as [|a l Hs IH Hf]; constructor; [exact IH|].
  rewrite Forall_forall in *. auto.
Qed.

(** C2, as amended.  Under the contract of [sort.Slice] the CPU sequence of
    the report holds the collected records in ascending order of [Proc] and
    the pair sequence the collected pairs in ascending order of [Key].
    Stability is not part of the contract.  Two inputs whose collected
    records, or pairs, are the same up to order yield the same sequence when
    no two of them share a processor number, or a key. *)
Theorem report_sorted :
  SortContract R ->
  (forall (o : Info R) buf,
      StronglySorted (fun a b => Proc a <= Proc b) (CPUs (scanProc o buf))
      /\ StronglySorted (fun a b => Strings.ltb (Key b) (Key a) = false)
           (Misc (scanProc o buf))
      /\ Permutation (CPUs (snd (scanLoop (Bufio.lines buf) (zeroCPU, o))))
           (CPUs (scanProc o buf))
      /\ Permutation (Misc (snd (scanLoop (Bufio.lines buf) (zeroCPU, o))))
           (Misc (scanProc o buf)))
  /\ (forall (o1 o2 : Info R) buf1 buf2,
         Permutation (CPUs (snd (scanLoop (Bufio.lines buf1) (zeroCPU, o1))))
           (CPUs (snd (scanLoop (Bufio.lines buf2) (zeroCPU, o2)))) ->
         NoDup (map Proc (CPUs (snd (scanLoop (Bufio.lines buf1) (zeroCPU, o1))))) ->
         CPUs (scanProc o1 buf1) = CPUs (scanProc o2 buf2))
  /\ (forall (o1 o2 : Info R) buf1 buf2,
         Permutation (Misc (snd (scanLoop (Bufio.lines buf1) (zeroCPU, o1))))
           (Misc (snd (scanLoop (Bufio.lines buf2) (zeroCPU, o2)))) ->
         NoDup (map Key (Misc (snd (scanLoop (Bufio.lines buf1) (zeroCPU, o1))))) ->
         Misc (scanProc o1 buf1) = Misc (scanProc o2 buf2)).
Proof.
  intros C. split; [|split].
  - intros o buf. unfold scanProc, scanRecords, sortInfo. cbn [CPUs Misc].
    repeat split.
    + apply (StronglySorted_weaken (fun x y => lessProc y x = false)).
      * unfold lessProc. intros x y H. apply Z.ltb_ge in H. exact H.
      * apply (sort_sorted R C). apply lessProc_StrictWeak.
    + apply (sort_sorted R C _ lessKey). apply lessKey_StrictWeak.
    + apply (sort_perm R C).
    + apply (sort_perm R C).
  - intros o1 o2 buf1 buf2 Hp Hn.
    unfold scanProc, scanRecords, sortInfo. cbn [CPUs].
    set (l1 := CPUs (snd (scanLoop (Bufio.lines buf1) (zeroCPU, o1)))) in *.
    set (l2 := CPUs (snd (scanLoop (Bufio.lines buf2) (zeroCPU, o2)))) in *.
    pose proof (sort_perm R C _ lessProc l1) as P1.
    pose proof (sort_perm R C _ lessProc l2) as P2.
    apply (sorted_perm_unique lessProc).
    + intros x y Hx Hy H1 H2.
      apply (NoDup_map_inj Proc (sort_Slice (CPU R) lessProc l1)); trivial.
      * apply (Permutation_NoDup (Permutation_map Proc P1) Hn).
      * unfold lessProc in *. apply Z.ltb_ge in H1, H2. lia.
    + rewrite <- P1, <- P2. exact Hp.
    + apply (sort_sorted R C). apply lessProc_StrictWeak.
    + apply (sort_sorted R C). apply lessProc_StrictWeak.
  - intros o1 o2 buf1 buf2 Hp Hn.
    unfold scanProc, scanRecords, sortInfo. cbn [Misc].
    set (l1 := Misc (snd (scanLoop (Bufio.lines buf1) (zeroCPU, o1)))) in *.
    set (l2 := Misc (snd (scanLoop (Bufio.lines buf2) (zeroCPU, o2)))) in *.
    pose proof (sort_perm R C _ lessKey l1) as P1.
    pose proof (sort_perm R C _ lessKey l2) as P2.
    apply (sorted_perm_unique lessKey).
    + intros x y Hx Hy H1 H2.
      apply (NoDup_map_inj Key (sort_Slice Pair lessKey l1)); trivial.
      * apply (Permutation_NoDup (Permutation_map Key P1) Hn).
      * unfold lessKey in *. now apply ltb_antisym.
    + rewrite <- P1, <- P2. exact Hp.
    + apply (sort_sorted R C). apply lessKey_StrictWeak.
    + apply (sort_sorted R C). apply lessKey_StrictWeak.
Qed.

End ReportFacts.

Lemma report_sorted_witness :
  StronglySorted (fun a b => Proc a <= Proc b)
    (CPUs (@scanProc smallRuntime zeroInfo buf_unordered))
  /\ CPUs (@scanProc smallRuntime zeroInfo buf_unordered)
     = CPUs (@scanProc smallRuntime zeroInfo buf_ordered)
  /\ Misc (@scanProc smallRuntime zeroInfo buf_unordered)
     = Misc (@scanProc smallRuntime zeroInfo buf_ordered).
Proof.
  destruct (@report_sorted smallRuntime smallRuntime_contract) as (Hs & Hc & Hm).
  split; [|split].
  - exact (proj1 (Hs zeroInfo buf_unordered)).
  - apply (Hc zeroInfo zeroInfo buf_unordered buf_ordered).
    + vm_compute. apply perm_swap.
    + vm_compute. repeat constructor; simpl; intuition discriminate.
  - apply (Hm zeroInfo zeroInfo buf_unordered buf_ordered).
    + vm_compute. apply perm_swap.
    + vm_compute. repeat constructor; simpl; intuition discriminate.
Defined.

(** C2 as stated fails: the two buffers hold the same pairs, and the order
    of the report follows the order of the input. *)
Lemma input_order_counterexample :
  Misc (@scanProc smallRuntime zeroInfo buf_pairs_ab) = [mkPair "k" "a"; mkPair "k" "b"]
  /\ Misc (@scanProc smallRuntime zeroInfo buf_pairs_ba) = [mkPair "k" "b"; mkPair "k" "a"].
Proof. split; reflexivity. Qed.

(** * Model names *)

Section NameFacts.

Ltac no_case H :=
  repeat match goal with
         | |- context [?p =? ?k] =>
             destruct (Z.eqb_spec p k) as [->|_];
             [exfalso; apply H; simpl; tauto|]
         end;
  reflexivity.

Lemma armPartName_generic (p : Part) : ~ In p armParts -> armPartName p = "generic".
Proof. intros H. unfold armPartName. cbn [orb]. no_case H. Qed.

Lemma broadcomPartName_generic (p : Part) :
  ~ In p broadcomParts -> broadcomPartName p = "generic".
Proof. intros H. unfold broadcomPartName. no_case H. Qed.

Lemma fujitsuPartName_generic (p : Part) :
  ~ In p fujitsuParts -> fujitsuPartName p = "generic".
Proof. intros H. unfold fujitsuPartName. no_case H. Qed.

Lemma nvidiaPartName_generic (p : Part) :
  ~ In p nvidiaParts -> nvidiaPartName p = "generic".
Proof. intros H. unfold nvidiaPartName. no_case H. Qed.

Lemma hiSiliconPartName_generic (p : Part) :
  ~ In p hiSiliconParts -> hiSiliconPartName p = "generic".
Proof. intros H. unfold hiSiliconPartName. no_case H. Qed.

Lemma qualcommPartName_generic (p : Part) :
  ~ In p qualcommParts -> qualcommPartName p = "generic".
Proof. intros H. unfold qualcommPartName. no_case H. Qed.

(** The tables hold exactly the codes with a name of their own. *)
Lemma tables_named (p : Part) :
  (In p armParts -> armPartName p <> "generic")
  /\ (In p broadcomParts -> broadcomPartName p <> "generic")
  /\ (In p fujitsuParts -> fujitsuPartName p <> "generic")
  /\ (In p nvidiaParts -> nvidiaPartName p <> "generic")
  /\ (In p hiSiliconParts -> hiSiliconPartName p <> "generic")
  /\ (In p qualcommParts -> qualcommPartName p <> "generic").
Proof.
  repeat split; intros H; simpl in H;
    repeat (destruct H as [<-|H]; [discriminate|]); contradiction.
Qed.

Context {R : Runtime}.

(** C4.  [Name] is defined on every implementer and part code.  A part
    that the table of the implementer does not list, and any part under an
    implementer without a table, is named "generic". *)
Theorem Name_generic :
  (forall c : CPU R, exists s, Name c = s)
  /\ (forall (c : CPU R) t,
         partTable (Impl c) = Some t -> ~ In (CPU_Part c) t -> Name c = "generic")
  /\ (forall c : CPU R, partTable (Impl c) = None -> Name c = "generic").
Proof.
  split; [|split].
  - intros c. now exists (Name c).
  - intros c t. unfold partTable, Name.
    destruct (Impl c =? ARMLtd);
      [intros E; inversion E; subst; apply armPartName_generic|].
    destruct ((Impl c =? Broadcom) || (Impl c =? Cavium));
      [intros E; inversion E; subst; apply broadcomPartName_generic|].
    destruct (Impl c =? Fujitsu);
      [intros E; inversion E; subst; apply fujitsuPartName_generic|].
    destruct (Impl c =? NVIDIA);
      [intros E; inversion E; subst; apply nvidiaPartName_generic|].
    destruct (Impl c =? HiSilicon);
      [intros E; inversion E; subst; apply hiSiliconPartName_generic|].
    destruct (Impl c =? Qualcomm);
      [intros E; inversion E; subst; apply qualcommPartName_generic|].
    destruct (Impl c =? Samsung); [reflexivity | discriminate].
  - intros c. unfold partTable, Name.
    repeat match goal with
           | |- context [if ?b then _ else _] => destruct b; [discriminate|]
           end.
    reflexivity.
Qed.

Ltac other_name :=
  repeat match goal with
         | |- context [if ?b then _ else _] => destruct b; [discriminate|]
         end;
  discriminate.

Lemma armPartName_Firestorm (p : Part) :
  (armPartName p = "M1 Firestorm" -> p = Firestorm)
  /\ (armPartName p = "M1 Icestorm" -> p = Icestorm).
Proof.
  split; unfold armPartName;
    repeat match goal with
           | |- context [if ?p =? ?k then _ else _] =>
               destruct (Z.eqb_spec p k) as [->|_]; [first [discriminate | reflexivity]|]
           end; discriminate.
Qed.

Lemma other_tables_no_M1 (p : Part) (s : string) :
  s = "M1 Firestorm" \/ s = "M1 Icestorm" ->
  broadcomPartName p <> s /\ fujitsuPartName p <> s /\ nvidiaPartName p <> s
  /\ hiSiliconPartName p <> s /\ qualcommPartName p <> s /\ samsungPartName p <> s.
Proof.
  unfold broadcomPartName, fujitsuPartName, nvidiaPartName, hiSiliconPartName,
    qualcommPartName, samsungPartName.
  intros [-> | ->]; repeat split; other_name.
Qed.

Lemma Name_M1 (c : CPU R) (s : string) :
  s = "M1 Firestorm" \/ s = "M1 Icestorm" ->
  Name c = s -> Impl c = ARMLtd /\ armPartName (CPU_Part c) = s.
Proof.
  intros Hs. destruct (other_tables_no_M1 (CPU_Part c) s Hs) as (B & F & N & H & Q & S).
  unfold Name. destruct (Z.eqb_spec (Impl c) ARMLtd) as [E|_]; [now split|].
  destruct ((Impl c =? Broadcom) || (Impl c =? Cavium)); [contradiction|].
  destruct (Impl c =? Fujitsu); [contradiction|].
  destruct (Impl c =? NVIDIA); [contradiction|].
  destruct (Impl c =? HiSilicon); [contradiction|].
  destruct (Impl c =? Qualcomm); [contradiction|].
  destruct (Impl c =? Samsung); [contradiction|].
  destruct Hs as [-> | ->]; discriminate.
Qed.

(** C10.  Under the implementer codes of Apple and Intel every part is
    named "generic"; the part codes Firestorm and Icestorm get their M1
    names under ARMLtd, and no other implementer and part yield them. *)
Theorem Name_Apple_Intel :
  (forall c : CPU R, Impl c = Apple \/ Impl c = Intel -> Name c = "generic")
  /\ (forall c : CPU R,
         Impl c = ARMLtd -> CPU_Part c = Firestorm -> Name c = "M1 Firestorm")
  /\ (forall c : CPU R,
         Impl c = ARMLtd -> CPU_Part c = Icestorm -> Name c = "M1 Icestorm")
  /\ (forall c : CPU R,
         Name c = "M1 Firestorm" -> Impl c = ARMLtd /\ CPU_Part c = Firestorm)
  /\ (forall c : CPU R,
         Name c = "M1 Icestorm" -> Impl c = ARMLtd /\ CPU_Part c = Icestorm).
Proof.
  split; [|split; [|split; [|split]]].
  - intros c [E | E]; unfold Name; rewrite E; reflexivity.
  - intros c Ei Ep. unfold Name. rewrite Ei, Ep. reflexivity.
  - intros c Ei Ep. unfold Name. rewrite Ei, Ep. reflexivity.
  - intros c H. destruct (Name_M1 c _ (or_introl eq_refl) H) as [Ei Ea].
    split; [exact Ei | now apply armPartName_Firestorm].
  - intros c H. destruct (Name_M1 c _ (or_intror eq_refl) H) as [Ei Ea].
    split; [exact Ei | now apply armPartName_Firestorm].
Qed.

End NameFacts.

Lemma Name_generic_witness :
  @Name smallRuntime (set_Impl ARMLtd (set_CPU_Part 0xfff zeroCPU)) = "generic"
  /\ @Name smallRuntime (set_Impl Samsung (set_CPU_Part CortexA72 zeroCPU)) = "generic"
  /\ @Name smallRuntime (set_Impl 0 (set_CPU_Part CortexA72 zeroCPU)) = "generic".
Proof.
  destruct (@Name_generic smallRuntime) as (_ & Ht & Hn). split; [|split].
  - apply (Ht _ armParts); [reflexivity|].
    simpl. intuition discriminate.
  - apply (Ht _ samsungParts); [reflexivity|]. simpl. tauto.
  - apply Hn. reflexivity.
Defined.

Lemma Name_Apple_Intel_witness :
  @Name smallRuntime (set_Impl Apple (set_CPU_Part Firestorm zeroCPU)) = "generic"
  /\ @Name smallRuntime (set_Impl Intel (set_CPU_Part Icestorm zeroCPU)) = "generic"
  /\ @Name smallRuntime (set_Impl ARMLtd (set_CPU_Part Firestorm zeroCPU)) = "M1 Firestorm"
  /\ @Name smallRuntime (set_Impl ARMLtd (set_CPU_Part Icestorm zeroCPU)) = "M1 Icestorm"
  /\ (ARMLtd = ARMLtd /\ Firestorm = Firestorm) /\ (ARMLtd = ARMLtd /\ Icestorm = Icestorm).
Proof.
  destruct (@Name_Apple_Intel smallRuntime) as (Hg & Hf & Hi & Hof & Hoi).
  split; [|split; [|split; [|split]]].
  - apply Hg. left. reflexivity.
  - apply Hg. right. reflexivity.
  - apply Hf; reflexivity.
  - apply Hi; reflexivity.
  - split.
    + apply (Hof (set_Impl ARMLtd (set_CPU_Part Firestorm zeroCPU))). reflexivity.
    + apply (Hoi (set_Impl ARMLtd (set_CPU_Part Icestorm zeroCPU))). reflexivity.
Defined.

(** The scanner and the name tables together, on one record. *)
Example scan_cortex_a72 :
  map (fun c => (Proc c, Impl c, CPU_Part c, Arch c, L2 (CPU_Cache c),
                 CPU_TLB c, CPU_AddrSizes c, Name c))
    (CPUs (@scanProc smallRuntime zeroInfo buf_cortex_a72))
  = [(0, ARMLtd, CortexA72, 8, 16384 * 1024, mkTLB 1024 4096, mkAddrSizes 40 48,
      "Cortex-A72")].
Proof. reflexivity. Qed.

(** * Implementer names *)

Section ImplementerFacts.

Lemma uint8s_complete (i : Z) : 0 <= i < 256 -> In i uint8s.
Proof.
  intros H. unfold uint8s. rewrite <- (Z2Nat.id i) by lia.
  apply in_map, in_seq. lia.
Qed.

Lemma MarshalText_checked :
  forallb (fun i =>
    match MarshalText i with
    | Some (s, None) =>
        negb (String.eqb s "")
        && forallb (fun j =>
             match MarshalText j with
             | Some (t, _) => negb (String.eqb s t) || (i =? j)
             | None => false
             end) uint8s
    | _ => false
    end) uint8s = true.
Proof. vm_compute. reflexivity. Qed.

(** X1.  On every [uint8] code [MarshalText] succeeds with a nil error and
    a non-empty text (the slicing of the name table stays in range), and
    two different codes never marshal to the same text. *)
Theorem MarshalText_injective :
  forall i, 0 <= i < 256 ->
    exists s, MarshalText i = Some (s, None) /\ s <> ""
      /\ forall j t, 0 <= j < 256 -> MarshalText j = Some (t, None) -> s = t -> i = j.
Proof.
  intros i Hi. pose proof MarshalText_checked as H.
  rewrite forallb_forall in H. specialize (H i (uint8s_complete i Hi)).
  destruct (MarshalText i) as [[s [e|]]|]; try discriminate.
  apply andb_true_iff in H as [Hs Hj].
  exists s. split; [reflexivity|]. split.
  - intros ->. discriminate.
  - intros j t Hjr Hm E. rewrite forallb_forall in Hj.
    specialize (Hj j (uint8s_complete j Hjr)). rewrite Hm in Hj.
    subst t. rewrite String.eqb_refl in Hj. cbn [negb orb] in Hj.
    now apply Z.eqb_eq.
Qed.

Lemma MarshalText_injective_witness :
  exists s, MarshalText Apple = Some (s, None) /\ s <> ""
    /\ forall j t, 0 <= j < 256 -> MarshalText j = Some (t, None) -> s = t -> Apple = j.
Proof. apply (MarshalText_injective Apple). unfold Apple. lia. Defined.

Lemma Implementer_String_fallback (i : Implementer) :
  ~ In i implementers ->
  Implementer_String i = Some ("Implementer(" ++ FormatInt i ++ ")").
Proof.
  intros H. unfold Implementer_String.
  assert (Hn : forall k, In k implementers -> i <> k) by (intros k Hk ->; auto).
  assert (E : (65 <=? i) && (i <=? 67) = false).
  { apply andb_false_iff.
    destruct (Z.leb_spec 65 i); [right | now left].
    apply Z.leb_gt.
    pose proof (Hn 65 ltac:(simpl; tauto)). pose proof (Hn 66 ltac:(simpl; tauto)).
    pose proof (Hn 67 ltac:(simpl; tauto)). lia. }
  rewrite E.
  repeat match goal with
         | |- context [i =? ?k] =>
             destruct (Z.eqb_spec i k) as [->|_];
             [exfalso; apply H; simpl; tauto|]
         end.
  reflexivity.
Qed.

(** X2.  [String] gives each of the ten constants the name of its line
    comment, and prints every other code as [Implementer(n)] with [n] in
    decimal. *)
Theorem Implementer_String_names :
  map Implementer_String implementers
  = map Some ["ARM Ltd"; "Broadcom"; "Cavium"; "Fujitsu Ltd"; "NVIDIA Corporation";
              "HiSilicon Technologies Inc"; "Qualcomm Technologies Inc";
              "Samsung Technologies Inc"; "Intel ARM parts"; "Apple Inc"]
  /\ forall i, ~ In i implementers ->
               Implementer_String i = Some ("Implementer(" ++ FormatInt i ++ ")").
Proof. split; [reflexivity | exact Implementer_String_fallback]. Qed.

Lemma Implementer_String_names_witness :
  Implementer_String 0 = Some "Implementer(0)"
  /\ Implementer_String 255 = Some "Implementer(255)".
Proof.
  destruct Implementer_String_names as [_ H]. split.
  - apply (H 0). simpl. intuition discriminate.
  - apply (H 255). simpl. intuition discriminate.
Defined.

Context {R : Runtime}.

(** X3.  [CPU.String] joins the implementer's name and the part's name by
    one space; for a code that is none of the ten constants it reads
    [Implementer(n) generic], whatever the part, and for Apple and Intel
    [Apple Inc generic] and [Intel ARM parts generic]. *)
Theorem CPU_String_generic :
  (forall c : CPU R, ~ In (Impl c) implementers ->
     CPU_String c = Some ("Implementer(" ++ FormatInt (Impl c) ++ ") generic"))
  /\ (forall c : CPU R, Impl c = Apple -> CPU_String c = Some "Apple Inc generic")
  /\ (forall c : CPU R, Impl c = Intel -> CPU_String c = Some "Intel ARM parts generic").
Proof.
  split; [|split].
  - intros c H. unfold CPU_String.
    rewrite (Implementer_String_fallback (Impl c) H).
    assert (Hn : forall k, In k implementers -> Impl c <> k) by (intros k Hk E; rewrite E in H; auto).
    assert (Name c = "generic") as ->.
    { unfold Name.
      repeat match goal with
             | |- context [Impl c =? ?k] =>
                 destruct (Z.eqb_spec (Impl c) k) as [E|_];
                 [exfalso; apply (Hn k); [simpl; tauto | exact E]|]
             end.
      reflexivity. }
    rewrite !append_assoc. reflexivity.
  - intros c E. unfold CPU_String, Name. rewrite E. reflexivity.
  - intros c E. unfold CPU_String, Name. rewrite E. reflexivity.
Qed.

End ImplementerFacts.

Lemma CPU_String_generic_witness :
  @CPU_String smallRuntime (set_Impl 1 (set_CPU_Part CortexA72 zeroCPU))
  = Some "Implementer(1) generic"
  /\ @CPU_String smallRuntime (set_Impl Apple (set_CPU_Part Firestorm zeroCPU))
     = Some "Apple Inc generic"
  /\ @CPU_String smallRuntime (set_Impl Intel zeroCPU) = Some "Intel ARM parts generic".
Proof.
  destruct (@CPU_String_generic smallRuntime) as (Hu & Ha & Hi). split; [|split].
  - apply (Hu (set_Impl 1 (set_CPU_Part CortexA72 zeroCPU))).
    simpl. intuition discriminate.
  - apply Ha. reflexivity.
  - apply Hi. reflexivity.
Defined.

(** * Detection on macOS *)

Section DarwinFacts.

Context {R : Runtime}.

Variable U : Unix.

Lemma coreLoop_app (lvl : Z) (brand : string) (cache : Cache) (vaddr : Z) (n : nat) :
  forall cpus : list (CPU R),
    coreLoop n lvl brand cache vaddr cpus
    = (cpus ++ map (fun k => m1CPU (Z.of_nat k) lvl brand cache vaddr)
                 (seq (List.length cpus) n))%list.
Proof.
  induction n as [|n IH]; intros cpus; cbn [coreLoop seq map].
  - now rewrite app_nil_r.
  - rewrite IH, length_app, <- app_assoc. cbn [List.length].
    replace (List.length cpus + 1)%nat with (S (List.length cpus)) by lia.
    reflexivity.
Qed.

Lemma map_const_repeat {A B : Type} (x : B) (l : list A) :
  map (fun _ => x) l = repeat x (List.length l).
Proof. induction l as [|a l IH]; simpl; [reflexivity | now rewrite IH]. Qed.

Lemma levelLoop_Proc (brand : string) (align vaddr : Z) (n : nat) :
  forall lvl (cpus : list (CPU R)),
    map Proc cpus = map Z.of_nat (seq 0 (List.length cpus)) ->
    map Proc (levelLoop U n lvl brand align vaddr cpus)
    = map Z.of_nat (seq 0 (List.length cpus + totalCores U n lvl)).
Proof.
  induction n as [|n IH]; intros lvl cpus H; cbn [levelLoop totalCores].
  - now rewrite Nat.add_0_r.
  - cbv zeta. rewrite coreLoop_app. fold (coreCount U lvl).
    rewrite IH.
    + rewrite length_app, length_map, length_seq. f_equal. f_equal. lia.
    + rewrite map_app, map_map, length_app, length_map, length_seq. cbn [Proc m1CPU].
      rewrite H, seq_app, map_app. reflexivity.
Qed.

Lemma levelLoop_Forall (Q : CPU R -> Prop) (brand : string) (align vaddr : Z) :
  (forall proc lvl cache, Q (m1CPU proc lvl brand cache vaddr)) ->
  forall n lvl cpus, Forall Q cpus -> Forall Q (levelLoop U n lvl brand align vaddr cpus).
Proof.
  intros HQ. induction n as [|n IH]; intros lvl cpus H; cbn [levelLoop]; [exact H|].
  cbv zeta. apply IH. rewrite coreLoop_app. apply Forall_app. split; [exact H|].
  apply Forall_forall. intros c Hc. apply in_map_iff in Hc as (k & <- & _). apply HQ.
Qed.

Lemma levelLoop_Icestorm (brand : string) (align vaddr : Z) (n : nat) :
  forall lvl (cpus : list (CPU R)),
    0 < lvl ->
    map MicroArch (levelLoop U n lvl brand align vaddr cpus)
    = (map MicroArch cpus ++ repeat "Icestorm" (totalCores U n lvl))%list.
Proof.
  induction n as [|n IH]; intros lvl cpus Hl; cbn [levelLoop totalCores].
  - now rewrite app_nil_r.
  - cbv zeta. rewrite coreLoop_app. fold (coreCount U lvl).
    rewrite IH by lia.
    rewrite map_app, map_map. cbn [MicroArch m1CPU].
    replace (lvl =? 0) with false by (symmetry; apply Z.eqb_neq; lia).
    rewrite map_const_repeat, length_seq, repeat_app, app_assoc. reflexivity.
Qed.


(** X5.  On an M1 host [detect] reports one CPU per physical core of every
    performance level, numbered 0, 1, 2, ... in the order of the report, so
    that the sequence is in ascending order of [Proc] without being
    sorted. *)
Theorem detect_darwin_Proc :
  sysctl32 U "hw.cpufamily" = famFireIce ->
  map Proc (CPUs (@detect_darwin R U))
  = map Z.of_nat (seq 0 (totalCores U (perfLevels U) 0))
  /\ List.length (CPUs (@detect_darwin R U)) = totalCores U (perfLevels U) 0.
Proof.
  intros H. unfold detect_darwin. rewrite H, Z.eqb_refl.
  unfold detectM1. cbv zeta. cbn [CPUs].
  assert (E : forall brand align vaddr,
             map Proc (levelLoop U (perfLevels U) 0 brand align vaddr ([] : list (CPU R)))
             = map Z.of_nat (seq 0 (totalCores U (perfLevels U) 0))).
  { intros. now rewrite levelLoop_Proc. }
  fold (perfLevels U). split; [apply E|].
  rewrite <- (length_map Proc), E, length_map, length_seq. reflexivity.
Qed.

(** X6.  Every CPU that [detect] reports on macOS has the implementer
    Apple, part code 0, architecture 8 and the M1 family as model; its
    [Name] is "generic", the core type being in [MicroArch] only. *)
Theorem detect_darwin_fields :
  Forall (fun c : CPU R =>
            Impl c = Apple /\ CPU_Part c = 0 /\ Arch c = 8 /\ Model c = famFireIce
            /\ Name c = "generic"
            /\ (MicroArch c = "Firestorm" \/ MicroArch c = "Icestorm"))
    (CPUs (@detect_darwin R U)).
Proof.
  unfold detect_darwin.
  destruct (sysctl32 U "hw.cpufamily" =? famFireIce); [|constructor].
  unfold detectM1. cbv zeta. cbn [CPUs].
  apply levelLoop_Forall; [|constructor].
  intros proc lvl cache. cbn [Impl CPU_Part Arch Model MicroArch m1CPU].
  repeat split. destruct (lvl =? 0); [now left | now right].
Qed.

(** X7.  On an M1 host the cores of performance level 0 come first and are
    marked Firestorm; the cores of all further levels follow and are marked
    Icestorm. *)
Theorem detect_darwin_MicroArch :
  sysctl32 U "hw.cpufamily" = famFireIce ->
  map MicroArch (CPUs (@detect_darwin R U))
  = match perfLevels U with
    | O => []
    | S n => (repeat "Firestorm" (coreCount U 0)
              ++ repeat "Icestorm" (totalCores U n 1))%list
    end.
Proof.
  intros H. unfold detect_darwin. rewrite H, Z.eqb_refl.
  unfold detectM1. cbv zeta. cbn [CPUs]. fold (perfLevels U).
  destruct (perfLevels U) as [|n]; [reflexivity|].
  cbn [levelLoop]. cbv zeta. rewrite coreLoop_app. fold (coreCount U 0).
  rewrite levelLoop_Icestorm by lia.
  cbn [app List.length]. rewrite map_map. cbn [MicroArch m1CPU Z.eqb].
  now rewrite map_const_repeat, length_seq.
Qed.

(** X8.  On an M1 host the pair sequence is Kernel Version, OS Version,
    Model, in this order, which is not the ascending order of [Key]. *)
Theorem detect_darwin_Misc :
  sysctl32 U "hw.cpufamily" = famFireIce ->
  Misc (@detect_darwin R U)
  = [mkPair "Kernel Version" (sysctl U "kern.version");
     mkPair "OS Version" (sysctl U "kern.osversion");
     mkPair "Model" (sysctl U "hw.model")]
  /\ ~ StronglySorted (fun a b => Strings.ltb (Key b) (Key a) = false)
         (Misc (@detect_darwin R U)).
Proof.
  intros H. unfold detect_darwin. rewrite H, Z.eqb_refl.
  unfold detectM1. cbv zeta. cbn [Misc app]. split; [reflexivity|].
  intros Hs. apply StronglySorted_inv in Hs as [Hs _].
  apply StronglySorted_inv in Hs as [_ Hf].
  inversion Hf as [|? ? Hk _]; subst. discriminate Hk.
Qed.

End DarwinFacts.


Lemma detect_darwin_Proc_witness :
  map Proc (CPUs (@detect_darwin smallRuntime m1Host)) = [0; 1; 2; 3; 4; 5; 6; 7]
  /\ List.length (CPUs (@detect_darwin smallRuntime m1Host)) = 8%nat.
Proof. apply (@detect_darwin_Proc smallRuntime m1Host). reflexivity. Defined.

Lemma detect_darwin_MicroArch_witness :
  map MicroArch (CPUs (@detect_darwin smallRuntime m1Host))
  = ["Firestorm"; "Firestorm"; "Firestorm"; "Firestorm";
     "Icestorm"; "Icestorm"; "Icestorm"; "Icestorm"].
Proof. apply (@detect_darwin_MicroArch smallRuntime m1Host). reflexivity. Defined.

Lemma detect_darwin_Misc_witness :
  Misc (@detect_darwin smallRuntime m1Host)
  = [mkPair "Kernel Version" "Darwin"; mkPair "OS Version" "21A559";
     mkPair "Model" "MacBookAir10,1"]
  /\ ~ StronglySorted (fun a b => Strings.ltb (Key b) (Key a) = false)
         (Misc (@detect_darwin smallRuntime m1Host)).
Proof. apply (@detect_darwin_Misc smallRuntime m1Host). reflexivity. Defined.

(** * The cache configuration *)

Section CacheconfigFacts.

Import Strings.

Lemma byte_of_range (c : ascii) : 0 <= byte_of c < 256.
Proof. unfold byte_of. pose proof (N_ascii_bounded c). lia. Qed.

Lemma byte_of_byte_at (x k : Z) : byte_of (byte_at x k) = Z.shiftr x (8 * k) mod 256.
Proof.
  unfold byte_of, byte_at.
  pose proof (Z.mod_pos_bound (Z.shiftr x (8 * k)) 256 ltac:(lia)) as H.
  rewrite N_ascii_embedding by lia. lia.
Qed.

(** Bits that do not overlap add up. *)
Lemma lor_shiftl_add (a b n : Z) :
  0 <= n -> 0 <= a < 2 ^ n -> Z.lor a (Z.shiftl b n) = a + b * 2 ^ n.
Proof.
  intros Hn Ha. rewrite Z.shiftl_mul_pow2 by lia.
  rewrite <- Z.lxor_lor, <- Z.add_nocarry_lxor; trivial.
  all: apply Z.bits_inj'; intros m Hm; rewrite Z.land_spec, Z.bits_0;
    destruct (Z.lt_ge_cases m n) as [Hlt|Hge];
    [ rewrite (Z.mul_pow2_bits_low b n m) by lia; apply andb_false_r
    | replace (Z.testbit a m) with false; [reflexivity|];
      symmetry; destruct (Z.eq_dec a 0) as [->|Hz]; [apply Z.bits_0|];
      apply Z.bits_above_log2; [lia|];
      pose proof (Z.pow_le_mono_r 2 n m ltac:(lia) Hge);
      apply Z.log2_lt_pow2; lia ].
Qed.

Lemma Uint64_value (b0 b1 b2 b3 b4 b5 b6 b7 : ascii) (rest : string) :
  Uint64 (String b0 (String b1 (String b2 (String b3
            (String b4 (String b5 (String b6 (String b7 rest))))))))
  = Some (byte_of b0 + byte_of b1 * 2 ^ 8 + byte_of b2 * 2 ^ 16 + byte_of b3 * 2 ^ 24
          + byte_of b4 * 2 ^ 32 + byte_of b5 * 2 ^ 40 + byte_of b6 * 2 ^ 48
          + byte_of b7 * 2 ^ 56).
Proof.
  cbn [Uint64]. f_equal.
  pose proof (byte_of_range b0). pose proof (byte_of_range b1).
  pose proof (byte_of_range b2). pose proof (byte_of_range b3).
  pose proof (byte_of_range b4). pose proof (byte_of_range b5).
  pose proof (byte_of_range b6). pose proof (byte_of_range b7).
  rewrite (lor_shiftl_add (byte_of b0)) by lia.
  rewrite (lor_shiftl_add _ (byte_of b2)) by lia.
  rewrite (lor_shiftl_add _ (byte_of b3)) by lia.
  rewrite (lor_shiftl_add _ (byte_of b4)) by lia.
  rewrite (lor_shiftl_add _ (byte_of b5)) by lia.
  rewrite (lor_shiftl_add _ (byte_of b6)) by lia.
  rewrite (lor_shiftl_add _ (byte_of b7)) by lia.
  reflexivity.
Qed.

Lemma Uint64_defined (b : string) :
  8 <= len b -> exists x, Uint64 b = Some x /\ 0 <= x < 2 ^ 64.
Proof.
  unfold len.
  destruct b as [|b0 [|b1 [|b2 [|b3 [|b4 [|b5 [|b6 [|b7 rest]]]]]]]];
    simpl String.length; intros H; try lia.
  rewrite Uint64_value. eexists. split; [reflexivity|].
  pose proof (byte_of_range b0). pose proof (byte_of_range b1).
  pose proof (byte_of_range b2). pose proof (byte_of_range b3).
  pose proof (byte_of_range b4). pose proof (byte_of_range b5).
  pose proof (byte_of_range b6). pose proof (byte_of_range b7). lia.
Qed.

Lemma len_drop (n : nat) (s : string) :
  (n <= String.length s)%nat -> String.length (drop n s) = (String.length s - n)%nat.
Proof.
  revert s; induction n as [|n IH]; intros [|a s] H; simpl in *; try lia.
  apply IH. lia.
Qed.

Lemma cacheconfig_loop_defined (v : string) (n : nat) :
  forall i, 0 <= i -> (i + Z.of_nat n) * 8 <= len v ->
    exists l, cacheconfig_loop v n i = Some l /\ List.length l = n
              /\ Forall (fun x => 0 <= x < 2 ^ 64) l.
Proof.
  induction n as [|n IH]; intros i Hi Hb; cbn [cacheconfig_loop].
  - exists []. repeat split. constructor.
  - replace ((0 <=? i * 8) && (i * 8 <=? len v)) with true
      by (symmetry; apply andb_true_iff; split; apply Z.leb_le; lia).
    destruct (Uint64_defined (slice_from v (i * 8))) as (x & Hx & Hr).
    { unfold slice_from, len in *. rewrite len_drop by lia. lia. }
    destruct (IH (i + 1) ltac:(lia) ltac:(lia)) as (l & Hl & Hn & Hf).
    rewrite Hx, Hl. exists (x :: l). repeat split; [simpl; lia | now constructor].
Qed.

(** X9.  [cacheconfig] never indexes out of range: whatever bytes the host
    returns, it yields one value below [2^64] for every full group of eight
    bytes and ignores an incomplete last group. *)
Theorem cacheconfig_defined (U : Unix) :
  exists l, cacheconfig U = Some l
            /\ Z.of_nat (List.length l) = len (fst (unix_SysctlRaw U "hw.cacheconfig")) / 8
            /\ Forall (fun x => 0 <= x < 2 ^ 64) l.
Proof.
  unfold cacheconfig. cbv zeta.
  set (v := fst (unix_SysctlRaw U "hw.cacheconfig")).
  pose proof (len_nonneg v) as Hv.
  assert (Hq : 0 <= len v / 8) by (apply Z.div_pos; lia).
  destruct (cacheconfig_loop_defined v (Z.to_nat (len v / 8)) 0 ltac:(lia)) as (l & Hl & Hn & Hf).
  - rewrite Z2Nat.id by lia. pose proof (Z.mul_div_le (len v) 8 ltac:(lia)). lia.
  - exists l. repeat split; [exact Hl | lia | exact Hf].
Qed.

Lemma Uint64_PutUint64 (x : Z) (rest : string) :
  0 <= x < 2 ^ 64 -> Uint64 (PutUint64 x ++ rest) = Some x.
Proof.
  intros Hx. unfold PutUint64. cbn [append]. rewrite Uint64_value.
  rewrite !byte_of_byte_at, !Z.shiftr_div_pow2 by lia. f_equal.
  change (8 * 0) with 0. change (2 ^ 0) with 1. rewrite Z.div_1_r.
  set (q1 := x / 2 ^ (8 * 1)). set (q2 := x / 2 ^ (8 * 2)).
  set (q3 := x / 2 ^ (8 * 3)). set (q4 := x / 2 ^ (8 * 4)).
  set (q5 := x / 2 ^ (8 * 5)). set (q6 := x / 2 ^ (8 * 6)).
  set (q7 := x / 2 ^ (8 * 7)).
  assert (E1 : q1 = x / 256) by reflexivity.
  assert (E2 : q2 = q1 / 256) by (unfold q1, q2; rewrite Z.div_div by lia; reflexivity).
  assert (E3 : q3 = q2 / 256) by (unfold q2, q3; rewrite Z.div_div by lia; reflexivity).
  assert (E4 : q4 = q3 / 256) by (unfold q3, q4; rewrite Z.div_div by lia; reflexivity).
  assert (E5 : q5 = q4 / 256) by (unfold q4, q5; rewrite Z.div_div by lia; reflexivity).
  assert (E6 : q6 = q5 / 256) by (unfold q5, q6; rewrite Z.div_div by lia; reflexivity).
  assert (E7 : q7 = q6 / 256) by (unfold q6, q7; rewrite Z.div_div by lia; reflexivity).
  assert (E8 : q7 / 256 = 0).
  { unfold q7. rewrite Z.div_div by lia. apply Z.div_small. lia. }
  clearbody q1 q2 q3 q4 q5 q6 q7.
  pose proof (Z.div_mod x 256 ltac:(lia)). pose proof (Z.div_mod q1 256 ltac:(lia)).
  pose proof (Z.div_mod q2 256 ltac:(lia)). pose proof (Z.div_mod q3 256 ltac:(lia)).
  pose proof (Z.div_mod q4 256 ltac:(lia)). pose proof (Z.div_mod q5 256 ltac:(lia)).
  pose proof (Z.div_mod q6 256 ltac:(lia)). pose proof (Z.div_mod q7 256 ltac:(lia)).
  lia.
Qed.

Lemma len_PutUint64 (x : Z) : len (PutUint64 x) = 8.
Proof. reflexivity. Qed.

Lemma len_encodeUint64s (xs : list Z) : len (encodeUint64s xs) = 8 * Z.of_nat (List.length xs).
Proof.
  induction xs as [|x xs IH]; [reflexivity|].
  cbn [encodeUint64s List.length]. rewrite len_append, len_PutUint64, IH. lia.
Qed.

Lemma cacheconfig_loop_encode (xs : list Z) :
  forall pre tail i,
    Forall (fun x => 0 <= x < 2 ^ 64) xs -> len pre = i * 8 ->
    cacheconfig_loop (pre ++ encodeUint64s xs ++ tail) (List.length xs) i = Some xs.
Proof.
  induction xs as [|x xs IH]; intros pre tail i Hf Hp; [reflexivity|].
  inversion Hf as [|? ? Hx Hf']; subst.
  cbn [List.length cacheconfig_loop encodeUint64s].
  pose proof (len_nonneg pre). pose proof (len_nonneg (encodeUint64s (x :: xs) ++ tail)).
  replace ((0 <=? i * 8) && (i * 8 <=? len (pre ++ (PutUint64 x ++ encodeUint64s xs) ++ tail)))
    with true
    by (symmetry; apply andb_true_iff; split; apply Z.leb_le;
        [lia | rewrite len_append; cbn [encodeUint64s] in *; lia]).
  rewrite <- Hp, slice_from_append, append_assoc, (Uint64_PutUint64 x _ Hx).
  replace (pre ++ PutUint64 x ++ encodeUint64s xs ++ tail)
    with ((pre ++ PutUint64 x) ++ encodeUint64s xs ++ tail)
    by (now rewrite append_assoc).
  rewrite (IH (pre ++ PutUint64 x) tail (i + 1) Hf');
    [reflexivity | rewrite len_append, len_PutUint64; lia].
Qed.

(** X10.  [cacheconfig] undoes the little-endian encoding: when the host
    returns the eight-byte encodings of some [uint64] values, followed by
    fewer than eight more bytes, it yields exactly those values. *)
Theorem cacheconfig_roundtrip (U : Unix) (xs : list Z) (tail : string) :
  Forall (fun x => 0 <= x < 2 ^ 64) xs -> len tail < 8 ->
  fst (unix_SysctlRaw U "hw.cacheconfig") = encodeUint64s xs ++ tail ->
  cacheconfig U = Some xs.
Proof.
  intros Hf Ht Hv. unfold cacheconfig. cbv zeta. rewrite Hv.
  pose proof (len_nonneg tail).
  replace (Z.to_nat (len (encodeUint64s xs ++ tail) / 8)) with (List.length xs).
  - exact (cacheconfig_loop_encode xs "" tail 0 Hf eq_refl).
  - rewrite len_append, len_encodeUint64s.
    rewrite (Z.mul_comm 8), Z.div_add_l, Z.div_small by lia. lia.
Qed.

End CacheconfigFacts.

Lemma cacheconfig_roundtrip_witness :
  cacheconfig (rawHost (encodeUint64s [1; 2 ^ 64 - 1; 65536] ++ "abc"))
  = Some [1; 2 ^ 64 - 1; 65536].
Proof.
  apply (cacheconfig_roundtrip _ [1; 2 ^ 64 - 1; 65536] "abc").
  - repeat constructor; lia.
  - reflexivity.
  - reflexivity.
Defined.

(** * Unrecognised and repeated keys *)

Section KeyFacts.

Context {R : Runtime}.

Ltac key_cases k tac :=
  repeat match goal with
         | |- context [String.eqb k ?lit] =>
             destruct (String.eqb_spec k lit) as [->|?]; [tac|]
         end.

Lemma scanLine_Misc (c : CPU R) (o : Info R) (l : string) :
  Misc (snd (scanLine (c, o) l)) = (Misc o ++ unknownPairs [l])%list
  /\ (key_is (fst (split l)) "" || isKnownKey (fst (split l)) = false ->
      fst (scanLine (c, o) l) = c /\ CPUs (snd (scanLine (c, o) l)) = CPUs o).
Proof.
  unfold scanLine, unknownPairs, isKnownKey, key_is. cbn [flat_map knownKeys existsb].
  destruct (split l) as [k v]. cbn [fst].
  key_cases k ltac:(cbn; split; [now rewrite app_nil_r | discriminate]).
  cbn. split; [reflexivity | intros _; now split].
Qed.

Lemma unknownPairs_app (l1 l2 : list string) :
  unknownPairs (l1 ++ l2) = (unknownPairs l1 ++ unknownPairs l2)%list.
Proof. unfold unknownPairs. apply flat_map_app. Qed.

Lemma scanLoop_Misc (ls : list string) :
  forall st : CPU R * Info R,
    Misc (snd (scanLoop ls st)) = (Misc (snd st) ++ unknownPairs ls)%list.
Proof.
  induction ls as [|l ls IH]; intros [c o]; cbn [scanLoop fold_left].
  - cbn. now rewrite app_nil_r.
  - change (fold_left scanLine ls (scanLine (c, o) l))
      with (scanLoop ls (scanLine (c, o) l)).
    rewrite IH. destruct (scanLine_Misc c o l) as [E _].
    destruct (scanLine (c, o) l) as [c' o']. cbn [snd] in *. rewrite E.
    change (l :: ls) with ([l] ++ ls)%list.
    now rewrite unknownPairs_app, app_assoc.
Qed.

(** X11.  A line whose key is not empty and has no case in the switch
    leaves the accumulator and the CPU sequence alone and appends its
    trimmed key and value as a pair.  No such pair is lost and no other is
    made: the pair sequence of the report holds the pairs it held before
    and those of the unrecognised lines, rearranged by the sort. *)
Theorem unknown_keys_kept :
  (forall (c : CPU R) (o : Info R) l,
      key_is (fst (split l)) "" || isKnownKey (fst (split l)) = false ->
      scanLine (c, o) l
      = (c, mkInfo (CPUs o) (Misc o ++ [mkPair (fst (split l)) (snd (split l))])))
  /\ (SortContract R ->
      forall (o : Info R) buf,
        Permutation (Misc o ++ unknownPairs (Bufio.lines buf)) (Misc (scanProc o buf))).
Proof.
  split.
  - intros c o l H. destruct (scanLine_Misc c o l) as [Em Ec].
    destruct (Ec H) as [E1 E2].
    destruct (scanLine (c, o) l) as [c' [cpus misc]]. cbn [fst snd CPUs Misc] in *.
    subst c' cpus. rewrite Em. unfold unknownPairs. cbn [flat_map].
    destruct (split l) as [k v]. cbn [fst snd] in *. rewrite H.
    now rewrite app_nil_r.
  - intros C o buf. unfold scanProc, scanRecords, sortInfo. cbn [Misc].
    pose proof (scanLoop_Misc (Bufio.lines buf) (zeroCPU, o)) as E.
    cbn [snd] in E. rewrite <- E. apply (sort_perm R C).
Qed.

Ltac overwrite c :=
  cbn;
  repeat match goal with
         | |- context [parseAddrSizes ?v] => destruct (parseAddrSizes v)
         | |- context [parseTLB ?v] => destruct (parseTLB v)
         end;
  try discriminate; destruct c as [? ? ? ? ? ? ? ? ? ? ? ? ? ? ? [? ? ? ? ? ?]];
  reflexivity.

(** X12.  Of two lines with the same recognised key the later one wins:
    processing both leaves the state that the later line alone gives. *)
Theorem later_line_wins (c : CPU R) (o : Info R) (l1 l2 : string) :
  fst (split l1) = fst (split l2) ->
  isKnownKey (fst (split l1)) = true ->
  scanLine (scanLine (c, o) l1) l2 = scanLine (c, o) l2.
Proof.
  unfold scanLine at 2 3. unfold isKnownKey, key_is. cbn [knownKeys existsb].
  destruct (split l1) as [k v1] eqn:E1. destruct (split l2) as [k2 v2] eqn:E2.
  cbn [fst]. intros <-.
  key_cases k ltac:(intros _; unfold scanLine; rewrite E2; overwrite c).
  cbn. discriminate.
Qed.

End KeyFacts.

Lemma unknown_keys_kept_witness :
  @scanLine smallRuntime (zeroCPU, zeroInfo) "Processor	: 1"
  = (zeroCPU, mkInfo [] [mkPair "Processor" "1"])
  /\ Permutation [mkPair "Serial" "10"; mkPair "Processor" "1"; mkPair "Hardware" "BCM2711"]
       (Misc (@scanProc smallRuntime zeroInfo buf_misc)).
Proof.
  destruct (@unknown_keys_kept smallRuntime) as [Hl Hp]. split.
  - apply (Hl zeroCPU zeroInfo "Processor	: 1"). reflexivity.
  - apply (Hp smallRuntime_contract zeroInfo buf_misc).
Defined.

Lemma later_line_wins_witness :
  @scanLine smallRuntime
    (@scanLine smallRuntime (zeroCPU, zeroInfo) "cache size	: 512 KB") "cache size	: 1 MB"
  = @scanLine smallRuntime (zeroCPU, zeroInfo) "cache size	: 1 MB".
Proof. apply (@later_line_wins smallRuntime); reflexivity. Defined.

(** * From the buffer to the lines *)

Section LineFacts.

Import Strings Bufio.

Lemma byte_LF (c : ascii) :
  Ascii.eqb c (ascii_of_nat 10) = false -> (byte_of c =? 10) = false.
Proof.
  intros H. apply Z.eqb_neq. intros E.
  apply Ascii.eqb_neq in H. apply H. apply byte_of_inj. rewrite E. reflexivity.
Qed.

Lemma len_String (c : ascii) (s : string) : len (String c s) = 1 + len s.
Proof. unfold len. simpl String.length. lia. Qed.

Lemma scan_line (l : string) :
  forall cur n rest,
    hasByte (ascii_of_nat 10) l = false -> n + len l < MaxScanTokenSize ->
    scan cur n (l ++ LF ++ rest) = dropCR (rev cur ++ l) :: scan "" 0 rest.
Proof.
  induction l as [|c l IH]; intros cur n rest Hl Hn.
  - cbn [append]. rewrite append_nil_r. reflexivity.
  - cbn [hasByte] in Hl. apply orb_false_iff in Hl as [Hc Hl].
    rewrite len_String in Hn. pose proof (len_nonneg l).
    cbn [append scan]. rewrite (byte_LF c Hc).
    replace (n + 1 >=? MaxScanTokenSize) with false
      by (symmetry; rewrite Z.geb_leb; apply Z.leb_gt; lia).
    rewrite (IH (String c cur) (n + 1) rest Hl) by lia.
    cbn [rev]. rewrite append_assoc. reflexivity.
Qed.

Lemma scan_last (l : string) :
  forall cur n,
    hasByte (ascii_of_nat 10) l = false -> n + len l < MaxScanTokenSize ->
    scan cur n l = match rev cur ++ l with
                   | EmptyString => []
                   | s => [dropCR s]
                   end.
Proof.
  induction l as [|c l IH]; intros cur n Hl Hn.
  - cbn [scan]. rewrite append_nil_r. destruct cur as [|a cur]; [reflexivity|].
    cbn [rev]. destruct (rev cur); reflexivity.
  - cbn [hasByte] in Hl. apply orb_false_iff in Hl as [Hc Hl].
    rewrite len_String in Hn. pose proof (len_nonneg l).
    cbn [scan]. rewrite (byte_LF c Hc).
    replace (n + 1 >=? MaxScanTokenSize) with false
      by (symmetry; rewrite Z.geb_leb; apply Z.leb_gt; lia).
    rewrite (IH (String c cur) (n + 1) Hl) by lia.
    cbn [rev]. rewrite append_assoc. reflexivity.
Qed.

Lemma scan_long (l : string) :
  forall cur n rest,
    hasByte (ascii_of_nat 10) l = false ->
    n < MaxScanTokenSize -> MaxScanTokenSize <= n + len l ->
    scan cur n (l ++ rest) = [].
Proof.
  induction l as [|c l IH]; intros cur n rest Hl Hn Hm.
  - unfold len in Hm. simpl in Hm. lia.
  - cbn [hasByte] in Hl. apply orb_false_iff in Hl as [Hc Hl].
    rewrite len_String in Hm.
    cbn [append scan]. rewrite (byte_LF c Hc).
    destruct (n + 1 >=? MaxScanTokenSize) eqn:E; [reflexivity|].
    rewrite Z.geb_leb in E. apply Z.leb_gt in E.
    apply IH; [exact Hl | lia | lia].
Qed.

Lemma shortLine_spec (l : string) :
  shortLine l = true ->
  hasByte (ascii_of_nat 10) l = false /\ 0 + len l < MaxScanTokenSize.
Proof.
  unfold shortLine. intros H. apply andb_true_iff in H as [H1 H2].
  apply negb_true_iff in H1. apply Z.ltb_lt in H2. split; [exact H1 | lia].
Qed.

Lemma lines_unlines_then (ls : list string) (tail : string) :
  forallb shortLine ls = true ->
  lines (unlines ls ++ tail) = (map dropCR ls ++ lines tail)%list.
Proof.
  unfold lines. induction ls as [|l ls IH]; intros H; [reflexivity|].
  cbn [forallb] in H. apply andb_true_iff in H as [Hl Hls].
  destruct (shortLine_spec l Hl) as [H1 H2].
  cbn [unlines map app]. unfold line. rewrite !append_assoc.
  rewrite (scan_line l "" 0 _ H1 H2). cbn [rev append].
  now rewrite (IH Hls).
Qed.

(** X13.  The scanner delivers the lines of the buffer as they are written:
    for lines without a line feed and shorter than 64 KiB, each ended by a
    line feed, and a last one that need not be, it yields these lines, each
    without one trailing carriage return, and the last only if it is not
    empty. *)
Theorem lines_unlines (ls : list string) (last : string) :
  forallb shortLine ls = true -> shortLine last = true ->
  lines (unlines ls ++ last)
  = (map dropCR ls ++ match last with
                      | EmptyString => []
                      | _ => [dropCR last]
                      end)%list.
Proof.
  intros Hls Hl. rewrite (lines_unlines_then ls last Hls). f_equal.
  destruct (shortLine_spec last Hl) as [H1 H2].
  unfold lines. rewrite (scan_last last "" 0 H1 H2).
  cbn [rev append]. destruct last; reflexivity.
Qed.

Context {R : Runtime}.

(** X14.  A line of 64 KiB or more ends the scan without any sign of it:
    that line and everything after it are ignored, and [scanProc] reports
    what the lines before it give. *)
Theorem long_line_ends_scan (o : Info R) (ls : list string) (long rest : string) :
  forallb shortLine ls = true ->
  hasByte (ascii_of_nat 10) long = false -> MaxScanTokenSize <= len long ->
  lines (unlines ls ++ long ++ rest) = map dropCR ls
  /\ scanProc o (unlines ls ++ long ++ rest) = scanProc o (unlines ls).
Proof.
  intros Hls Hl Hm.
  assert (E : lines (unlines ls ++ long ++ rest) = map dropCR ls).
  { rewrite (lines_unlines_then ls _ Hls). unfold lines.
    rewrite (scan_long long "" 0 rest Hl) by (unfold MaxScanTokenSize in *; lia).
    apply app_nil_r. }
  split; [exact E|]. unfold scanProc. rewrite E.
  rewrite <- (append_nil_r (unlines ls)), (lines_unlines_then ls "" Hls).
  now rewrite app_nil_r.
Qed.

End LineFacts.

Lemma lines_unlines_witness :
  Bufio.lines (unlines ["processor	: 0" ++ String (ascii_of_nat 13) ""; ""] ++ "processor	: 1")
  = ["processor	: 0"; ""; "processor	: 1"].
Proof.
  apply (lines_unlines ["processor	: 0" ++ String (ascii_of_nat 13) ""; ""]
           "processor	: 1"); reflexivity.
Defined.

Lemma long_line_ends_scan_witness :
  Bufio.lines (unlines ["processor	: 0"; ""] ++ longLine ++ line "processor	: 1" ++ line "")
  = ["processor	: 0"; ""]
  /\ @scanProc smallRuntime zeroInfo
       (unlines ["processor	: 0"; ""] ++ longLine ++ line "processor	: 1" ++ line "")
     = @scanProc smallRuntime zeroInfo (unlines ["processor	: 0"; ""]).
Proof.
  apply (@long_line_ends_scan smallRuntime zeroInfo ["processor	: 0"; ""] longLine).
  - reflexivity.
  - vm_compute. reflexivity.
  - vm_compute. discriminate.
Defined.

(** * More on keys, numbers and feature lists *)

Section MoreScannerFacts.

Import Strings Strconv.

Lemma allSpace_hasByte (c : ascii) (ws : string) :
  asciiSpace c = false -> allSpace ws = true -> hasByte c ws = false.
Proof.
  intros Hc. induction ws as [|a ws IH]; cbn [allSpace hasByte]; intros H; [reflexivity|].
  apply andb_true_iff in H as [Ha Hws]. rewrite (IH Hws), orb_false_r.
  apply Ascii.eqb_neq. intros ->. congruence.
Qed.

Lemma TrimSpace_allSpace (ws : string) : allSpace ws = true -> TrimSpace ws = "".
Proof.
  intros H. unfold TrimSpace.
  assert (E : trimLeft ws = "").
  { induction ws as [|a ws IH]; [reflexivity|].
    cbn [allSpace] in H. apply andb_true_iff in H as [Ha Hws].
    cbn [trimLeft]. rewrite Ha. now apply IH. }
  now rewrite E.
Qed.

Context {R : Runtime}.

(** X15.  The key that [split] returns never contains a colon.  A line that
    has only white space before its first colon has an empty key, so the
    scanner takes it for a record separator whatever follows the colon. *)
Theorem split_key :
  (forall s, hasByte ":" (fst (split s)) = false)
  /\ (forall ws after (c : CPU R) (o : Info R),
         allSpace ws = true ->
         fst (split (ws ++ ":" ++ after)) = ""
         /\ scanLine (c, o) (ws ++ ":" ++ after) = (c, mkInfo (CPUs o ++ [c]) (Misc o))).
Proof.
  split.
  - intros s. unfold split. cbn [fst].
    destruct (IndexByte s ":" >=? 0) eqn:E; [|reflexivity].
    rewrite Z.geb_leb in E. apply Z.leb_le in E.
    destruct (IndexByte_split s ":" E) as [_ Hn].
    destruct (TrimSpace_spec (slice_to s (IndexByte s ":"))) as [(l & r & Hs) _].
    rewrite Hs, !hasByte_append in Hn.
    apply orb_false_iff in Hn as [_ Hn]. now apply orb_false_iff in Hn as [Hn _].
  - intros ws after c o H.
    assert (E : fst (split (ws ++ ":" ++ after)) = "").
    { rewrite split_colon by (apply allSpace_hasByte; [reflexivity | exact H]).
      cbn [fst]. now apply TrimSpace_allSpace. }
    split; [exact E | now apply scanLine_separator].
Qed.

(** The digit loop in base 8, on text that denotes a number below [2^64]. *)
Lemma digits_textValue_octal (s : string) :
  forall n us v,
    0 <= n -> textValue 8 n s = Some v -> v <= maxUint64 ->
    digits 8 true (maxUint64 / 8 + 1) maxUint64 s n us = inl (v, us).
Proof.
  induction s as [|a s IH]; intros n us v Hn H Hv.
  - simpl in *. now inversion H.
  - cbn [textValue] in H. cbn [digits].
    destruct (digitValue a) as [d|] eqn:Ed; [|discriminate].
    destruct (digitValue_digitOf a d Ed) as (Hu & Hd & Hr).
    cbv zeta. rewrite Hu, Hd. cbn [andb].
    destruct (d <? 8) eqn:Edb; [|discriminate]. apply Z.ltb_lt in Edb.
    assert (Hle : n * 8 + d <= v) by (apply (textValue_ge 8 s) in H; lia).
    assert (Hmax : maxUint64 = 18446744073709551615) by reflexivity.
    change (maxUint64 / 8 + 1) with 2305843009213693952.
    replace (d >=? 8) with false by (symmetry; rewrite Z.geb_leb; apply Z.leb_gt; lia).
    replace (n >=? 2305843009213693952) with false
      by (symmetry; rewrite Z.geb_leb; apply Z.leb_gt; lia).
    unfold wrap_u64. change (2 ^ 64) with 18446744073709551616.
    rewrite (Z.mod_small (n * 8)) by lia.
    rewrite (Z.mod_small (n * 8 + d)) by lia.
    replace (n * 8 + d <? n * 8) with false by (symmetry; apply Z.ltb_ge; lia).
    replace (n * 8 + d >? maxUint64) with false
      by (symmetry; rewrite Z.gtb_ltb; apply Z.ltb_ge; lia).
    cbn [orb]. change 2305843009213693952 with (maxUint64 / 8 + 1).
    apply IH; [lia | exact H | exact Hv].
Qed.

(** X16.  [atoi] reads digits after a leading zero in base eight: for a
    non-empty run [d] of the digits 0 to 7 whose octal value is below
    [2^63], ["0" ++ d] parses to that value, not to the decimal one. *)
Theorem atoi_octal (d : string) (n : Z) :
  d <> "" -> textValue 8 0 d = Some n -> n < 2 ^ 63 -> atoi ("0" ++ d) = n.
Proof.
  intros Hd H Hn.
  assert (H0 : 0 <= n) by (apply (textValue_ge 8 d) in H; lia).
  unfold atoi, ParseUint0. cbn [append]. rewrite maxVal_64.
  change (byte_of "0" =? 48) with true. cbv iota.
  destruct d as [|b r]; [contradiction|].
  assert (Hb : exists v, digitValue b = Some v /\ v < 8).
  { cbn [textValue] in H. destruct (digitValue b) as [v|]; [|discriminate].
    exists v. split; [reflexivity|]. destruct (v <? 8) eqn:E; [|discriminate].
    now apply Z.ltb_lt. }
  destruct Hb as (v & Hv & Hlt).
  assert (Hl : (lower (byte_of b) =? 98) = false /\ (lower (byte_of b) =? 111) = false
               /\ (lower (byte_of b) =? 120) = false).
  { revert Hv Hlt. clear. destruct b as [b0 b1 b2 b3 b4 b5 b6 b7].
    destruct b0, b1, b2, b3, b4, b5, b6, b7; vm_compute; intros Hv Hlt;
      try discriminate; repeat split; try reflexivity;
      inversion Hv; subst; discriminate. }
  destruct Hl as (E1 & E2 & E3).
  assert (Eb : (if lower (byte_of b) =? 98 then (2, r)
                else if lower (byte_of b) =? 111 then (8, r)
                else if lower (byte_of b) =? 120 then (16, r)
                else (8, String b r)) = (8, String b r))
    by (now rewrite E1, E2, E3).
  destruct r as [|c r].
  - cbv zeta. rewrite (digits_textValue_octal _ 0 false n ltac:(lia) H)
      by (unfold maxUint64; lia).
    cbn [andb]. now apply wrap_int_small.
  - rewrite E1, E2, E3. cbv zeta.
    rewrite (digits_textValue_octal _ 0 false n ltac:(lia) H)
      by (unfold maxUint64; lia).
    cbn [andb]. now apply wrap_int_small.
Qed.

Lemma splitSpace_concat (s : string) :
  forall cur, String.concat " " (splitSpace cur s) = rev cur ++ s
              /\ splitSpace cur s <> [].
Proof.
  induction s as [|c s IH]; intros cur; cbn [splitSpace].
  - split; [cbn; now rewrite append_nil_r | discriminate].
  - destruct (Ascii.eqb_spec c " ") as [->|Hc].
    + split; [|discriminate]. destruct (IH "") as [E Hne].
      destruct (splitSpace "" s) as [|x l] eqn:Es; [contradiction|].
      change (String.concat " " (rev cur :: x :: l))
        with (rev cur ++ " " ++ String.concat " " (x :: l)).
      rewrite E. reflexivity.
    + destruct (IH (String c cur)) as [E Hne]. split; [|exact Hne].
      rewrite E. cbn [rev]. now rewrite append_assoc.
Qed.

Lemma splitSpace_no_space (s : string) :
  forall cur, hasByte " " cur = false ->
              Forall (fun p => hasByte " " p = false) (splitSpace cur s).
Proof.
  assert (Hrev : forall cur, hasByte " " cur = false -> hasByte " " (rev cur) = false).
  { induction cur as [|a cur IHc]; cbn [hasByte rev]; intros H; [reflexivity|].
    apply orb_false_iff in H as [Ha Hc]. rewrite hasByte_append, (IHc Hc).
    cbn [hasByte orb]. now rewrite Ha. }
  induction s as [|c s IH]; intros cur Hcur; cbn [splitSpace].
  - constructor; [now apply Hrev | constructor].
  - destruct (Ascii.eqb c " ") eqn:E.
    + constructor; [now apply Hrev | now apply IH].
    + apply IH. cbn [hasByte]. now rewrite E, Hcur.
Qed.

(** X17.  The feature list of a flags, Features or bugs line is the value
    cut at every single space: it is never empty (an empty value gives one
    empty feature), no feature contains a space, and joining the features
    with spaces gives the value back. *)
Theorem features_roundtrip (c : CPU R) (o : Info R) (l k v : string) :
  split l = (k, v) -> k = "flags" \/ k = "Features" \/ k = "bugs" ->
  let fs := if String.eqb k "bugs" then Bugs (fst (scanLine (c, o) l))
            else Features (fst (scanLine (c, o) l)) in
  String.concat " " fs = v /\ fs <> []
  /\ Forall (fun p => hasByte " " p = false) fs.
Proof.
  intros Hs Hk. unfold scanLine. rewrite Hs.
  assert (E : (if String.eqb k "bugs"
               then Bugs (fst (scanLine (c, o) l))
               else Features (fst (scanLine (c, o) l))) = Split_space v).
  { unfold scanLine. rewrite Hs. destruct Hk as [-> | [-> | ->]]; reflexivity. }
  unfold scanLine in E. rewrite Hs in E. cbv zeta. rewrite E. unfold Split_space.
  destruct (splitSpace_concat v "") as [E1 E2].
  repeat split; [exact E1 | exact E2 | now apply splitSpace_no_space].
Qed.

(** X18.  [detect] on Linux never fails: a read error gives the empty
    report, and so does a file without a separator line and without
    unrecognised keys, even one that holds a whole record. *)
Theorem detect_empty :
  @detect R None = zeroInfo
  /\ (SortContract R ->
      forall buf,
        countSeparators (Bufio.lines buf) = 0%nat ->
        CPUs (@detect R (Some buf)) = []
        /\ (unknownPairs (Bufio.lines buf) = [] -> @detect R (Some buf) = zeroInfo)).
Proof.
  split; [reflexivity|]. intros C buf Hc. cbn [detect].
  assert (Ecpu : CPUs (scanProc zeroInfo buf) = []).
  { apply length_zero_iff_nil.
    unfold scanProc, scanRecords, sortInfo. cbn [CPUs].
    rewrite <- (Permutation_length (sort_perm R C _ lessProc _)).
    rewrite scanLoop_count, Hc. reflexivity. }
  split; [exact Ecpu|]. intros Hu.
  assert (Emisc : Misc (scanProc zeroInfo buf) = []).
  { apply length_zero_iff_nil.
    unfold scanProc, scanRecords, sortInfo. cbn [Misc].
    rewrite <- (Permutation_length (sort_perm R C _ lessKey _)).
    rewrite scanLoop_Misc, Hu. reflexivity. }
  destruct (scanProc zeroInfo buf) as [cpus misc]. cbn [CPUs Misc] in *.
  now subst.
Qed.

End MoreScannerFacts.

Lemma split_key_witness :
  fst (split ("  	" ++ ":" ++ " x")) = ""
  /\ @scanLine smallRuntime (zeroCPU, zeroInfo) ("  	" ++ ":" ++ " x")
     = (zeroCPU, mkInfo [zeroCPU] []).
Proof.
  destruct (@split_key smallRuntime) as [_ H].
  apply (H "  	" " x" zeroCPU zeroInfo). reflexivity.
Defined.

Lemma atoi_octal_witness : atoi ("0" ++ "755") = 493.
Proof. apply (atoi_octal "755" 493); [discriminate | reflexivity | lia]. Defined.

Lemma features_roundtrip_witness :
  let fs := Features (fst (@scanLine smallRuntime (zeroCPU, zeroInfo) "flags	: fpu  vme")) in
  String.concat " " fs = "fpu  vme" /\ fs <> []
  /\ Forall (fun p => hasByte " " p = false) fs.
Proof.
  apply (@features_roundtrip smallRuntime zeroCPU zeroInfo "flags	: fpu  vme" "flags"
           "fpu  vme"); [reflexivity | left; reflexivity].
Defined.

Lemma detect_empty_witness :
  CPUs (@detect smallRuntime (Some "processor	: 0")) = []
  /\ @detect smallRuntime (Some "processor	: 0") = zeroInfo.
Proof.
  destruct (@detect_empty smallRuntime) as [_ H].
  destruct (H smallRuntime_contract "processor	: 0" eq_refl) as [H1 H2].
  split; [exact H1 | apply H2; reflexivity].
Defined.

(** * Growth of the report, and text that is no number *)

Section GrowthFacts.

Import Strconv.

Context {R : Runtime}.

Lemma scanLoop_grows (ls : list string) :
  forall st : CPU R * Info R,
    exists cpus, CPUs (snd (scanLoop ls st)) = (CPUs (snd st) ++ cpus)%list.
Proof.
  induction ls as [|l ls IH]; intros [c o]; cbn [scanLoop fold_left].
  - exists []. cbn. now rewrite app_nil_r.
  - change (fold_left scanLine ls (scanLine (c, o) l))
      with (scanLoop ls (scanLine (c, o) l)).
    destruct (IH (scanLine (c, o) l)) as [cpus E]. rewrite E.
    destruct (key_is (fst (split l)) "") eqn:Ek.
    + apply String.eqb_eq in Ek. rewrite (scanLine_separator c o l Ek).
      cbn [snd CPUs]. exists (c :: cpus). now rewrite <- app_assoc.
    + rewrite (scanLine_keeps_CPUs c o l Ek). now exists cpus.
Qed.

(** X19.  [scanProc] only adds to the report it is given: every CPU and
    every pair that the report held before the call is in it after the
    call. *)
Theorem scanProc_keeps_entries :
  SortContract R ->
  forall (o : Info R) buf,
    (forall c, In c (CPUs o) -> In c (CPUs (scanProc o buf)))
    /\ (forall p, In p (Misc o) -> In p (Misc (scanProc o buf))).
Proof.
  intros C o buf. unfold scanProc, scanRecords, sortInfo. cbn [CPUs Misc]. split.
  - intros c Hc. apply (Permutation_in c (sort_perm R C _ lessProc _)).
    destruct (scanLoop_grows (Bufio.lines buf) (zeroCPU, o)) as [cpus E].
    rewrite E. cbn [snd]. apply in_or_app. now left.
  - intros p Hp. apply (Permutation_in p (sort_perm R C _ lessKey _)).
    rewrite scanLoop_Misc. cbn [snd]. apply in_or_app. now left.
Qed.

(** X20.  [atoi] gives 0 for the empty string and for every string that
    does not begin with a decimal digit or an underscore: a sign, a space
    or a letter in front makes the whole text count as 0. *)
Theorem atoi_not_a_number :
  atoi "" = 0
  /\ forall a r,
       (48 <=? byte_of a) && (byte_of a <=? 57) = false -> byte_of a <> 95 ->
       atoi (String a r) = 0.
Proof.
  split; [reflexivity|]. intros a r Hd Hu.
  unfold atoi, ParseUint0. rewrite maxVal_64.
  assert (E0 : (byte_of a =? 48) = false).
  { apply Z.eqb_neq. intros E. rewrite E in Hd. discriminate. }
  rewrite E0. cbn [digits]. cbv zeta.
  replace (byte_of a =? 95) with false by (symmetry; now apply Z.eqb_neq).
  cbn [andb]. unfold digitOf. rewrite Hd.
  destruct ((97 <=? lower (byte_of a)) && (lower (byte_of a) <=? 122)) eqn:El;
    [|reflexivity].
  apply andb_true_iff in El as [El _]. apply Z.leb_le in El.
  replace (lower (byte_of a) - 97 + 10 >=? 10) with true
    by (symmetry; rewrite Z.geb_leb; apply Z.leb_le; lia).
  reflexivity.
Qed.

End GrowthFacts.

Lemma scanProc_keeps_entries_witness :
  In (set_Proc 9 zeroCPU)
    (CPUs (@scanProc smallRuntime (mkInfo [set_Proc 9 zeroCPU] [mkPair "a" "b"]) buf_misc))
  /\ In (mkPair "a" "b")
       (Misc (@scanProc smallRuntime (mkInfo [set_Proc 9 zeroCPU] [mkPair "a" "b"]) buf_misc)).
Proof.
  destruct (@scanProc_keeps_entries smallRuntime smallRuntime_contract
              (mkInfo [set_Proc 9 zeroCPU] [mkPair "a" "b"]) buf_misc) as [Hc Hm].
  split; [apply Hc | apply Hm]; left; reflexivity.
Defined.

Lemma atoi_not_a_number_witness : atoi "-1" = 0 /\ atoi " 7" = 0 /\ atoi "x41" = 0.
Proof.
  destruct atoi_not_a_number as [_ H].
  repeat split; apply H; (reflexivity || discriminate).
Defined.
